(** * ProviderStore: the wallet / RPC connection store of the exchange front end

    A shallow embedding of the two variants of [stores/Provider.ts]:

    - [Full]: the variant with Gnosis Safe integration, injected-wallet
      tracking, [handleAccountsChanged] and [encodeTransaction];
    - [Compact]: the variant that only tracks the backup provider.

    The store is a mutable object whose methods talk to collaborators that
    live outside the repository (the wallet handle with its event emitter,
    the ethers RPC clients, the data-refresh store).  Methods are embedded in
    a state-and-exception monad over the store; every call to a collaborator
    is recorded in an effect log, and the answer of an asynchronous or
    fallible collaborator is an explicit input of the operation.  An
    operation is run to completion: overlapping asynchronous loads are not
    interleaved. *)

From stdpp Require Import base decidable option list sets numbers strings.

Open Scope Z_scope.
Open Scope string_scope.
Open Scope list_scope.

(** ** JavaScript values *)

(** A field that may hold [undefined], [null] or a value. *)
Inductive JsVal (A : Type) : Type :=
  | JsUndefined
  | JsNull
  | JsValue (a : A).
Arguments JsUndefined {A}.
Arguments JsNull {A}.
Arguments JsValue {A} a.

(** Truthiness of a JavaScript number and string. *)
Definition truthy_number (n : Z) : bool := negb (n =? 0)%Z.

Definition truthy_string (s : string) : bool :=
  match s with
  | EmptyString => false
  | String _ _ => true
  end.

Definition truthy {A : Type} (t : A → bool) (v : JsVal A) : bool :=
  match v with
  | JsUndefined | JsNull => false
  | JsValue a => t a
  end.

(** Objects are always truthy. *)
Definition truthy_object {A : Type} (_ : A) : bool := true.

(** [v != null] in JavaScript: neither [null] nor [undefined]. *)
Definition not_nullish {A : Type} (v : JsVal A) : Prop :=
  match v with
  | JsUndefined | JsNull => False
  | JsValue _ => True
  end.

(** ** Enumerations of the source *)

Inductive ContractTypes : Type :=
  | BPool | BFactory | TestToken | ExchangeProxy | Multicall | TestTokenBytes.

Inductive ERRORS : Type :=
  | UntrackedChainId
  | ContextNotFound
  | BlockchainActionNoAccount
  | BlockchainActionNoChainId
  | BlockchainActionNoResponse
  | NoWeb3.

Definition error_message (e : ERRORS) : string :=
  match e with
  | UntrackedChainId => "Attempting to access data for untracked chainId"
  | ContextNotFound => "Specified context name note stored"
  | BlockchainActionNoAccount =>
      "Attempting to do blockchain transaction with no account"
  | BlockchainActionNoChainId =>
      "Attempting to do blockchain transaction with no chainId"
  | BlockchainActionNoResponse =>
      "No error or response received from blockchain action"
  | NoWeb3 => "Error Loading Web3"
  end.

(** ** Collaborator objects *)

(** A wallet-supplied provider handle.  [provider_on] says whether the object
    has the event-emitter members ([on], [removeListener]) that the store
    tests with [provider.on]; [isMetaMask] is the optional flag it inspects. *)
Record Provider : Type := {
  provider_id : nat;
  provider_on : bool;
  isMetaMask : bool;
}.

(** An ethers RPC client ([JsonRpcProvider] or [Web3Provider]);
    [library_close] says whether the object has a [close] member. *)
Record Library : Type := {
  library_id : nat;
  library_close : bool;
}.

(** The value of [providerStatus.activeProvider]: [null], the string
    ['backup'], or a wallet handle. *)
Inductive ActiveProvider : Type :=
  | APNull
  | APBackup
  | APHandle (p : Provider).

(** The result of [getNetwork()]. *)
Record Network : Type := {
  chainId : Z;
  name : string;
}.

Inductive EventName : Type :=
  | chainChanged | accountsChanged | close | networkChanged.

(** The bound methods the store registers as listeners. *)
Inductive Callback : Type :=
  | this_handleNetworkChanged
  | this_handleAccountsChanged
  | this_handleClose.

(** One registered listener: the handle it lives on, the event, the callback. *)
Definition Subscription : Type := Provider * EventName * Callback.

Definition sub_handle (s : Subscription) : Provider := s.1.1.

Global Instance Provider_eq_dec : EqDecision Provider.
Proof. solve_decision. Defined.
Global Instance Library_eq_dec : EqDecision Library.
Proof. solve_decision. Defined.
Global Instance EventName_eq_dec : EqDecision EventName.
Proof. solve_decision. Defined.
Global Instance Callback_eq_dec : EqDecision Callback.
Proof. solve_decision. Defined.
Global Instance ActiveProvider_eq_dec : EqDecision ActiveProvider.
Proof. solve_decision. Defined.
Global Instance ERRORS_eq_dec : EqDecision ERRORS.
Proof. solve_decision. Defined.

(** An argument of a contract call (the source types it [any]). *)
#[warnings="-register-all"]
Inductive JsParam : Type :=
  | PNumber (n : Z)
  | PString (s : string)
  | PBool (b : bool)
  | PArray (l : list JsParam).

(** The optional [overrides] object of a contract call. *)
Record Overrides : Type := {
  ov_value : option Z;
  ov_gasLimit : option Z;
}.

Definition empty_overrides : Overrides :=
  {| ov_value := None; ov_gasLimit := None |}.

(** ** The effect log *)

(** Calls the store makes on its collaborators, in the order it makes them. *)
Inductive Effect : Type :=
  | EffRemoveListener (p : Provider) (e : EventName) (cb : Callback)
  | EffOn (p : Provider) (e : EventName) (cb : Callback)
  | EffLibraryClose (l : Library)
  | EffNewWeb3Provider (p : Provider)
  | EffAutoRefreshOff (p : Provider)
  | EffNewJsonRpcProvider
  | EffGetNetwork (l : Library)
  | EffListAccounts (l : Library)
  | EffBlockchainFetch (force : bool)
  | EffGetSigner (l : Library) (account : JsVal string)
  | EffNewContract (address : string) (type : ContractTypes)
  | EffEncode (type : ContractTypes) (action : string) (params : list JsParam)
  | EffCheckPendingTransactions (account : string)
  | EffFetchBalancerTokenData (account : string)
  | EffLoadTokens (account : string).

(** The world outside the store: the listeners currently registered on
    wallet handles (most recently added first) and the effect log (oldest
    first). *)
Record World : Type := {
  listeners : list Subscription;
  effects : list Effect;
}.

Definition empty_world : World := {| listeners := []; effects := [] |}.

(** [emitter.removeListener(event, cb)] removes one registration of [cb],
    the most recently added one, and does nothing when there is none. *)
Fixpoint remove_first (s : Subscription) (l : list Subscription)
    : list Subscription :=
  match l with
  | [] => []
  | x :: l' => if decide (x = s) then l' else x :: remove_first s l'
  end.

(** The handles that have at least one listener, without repetition. *)
Definition attached_handles (l : list Subscription) : list Provider :=
  remove_dups (sub_handle <$> l).

Definition is_listener_effect (e : Effect) : bool :=
  match e with
  | EffRemoveListener _ _ _ | EffOn _ _ _ => true
  | _ => false
  end.

Definition is_query_effect (e : Effect) : bool :=
  match e with
  | EffGetNetwork _ | EffListAccounts _ => true
  | _ => false
  end.

Definition is_binding_effect (e : Effect) : bool :=
  match e with
  | EffGetSigner _ _ | EffNewContract _ _ | EffEncode _ _ _ => true
  | _ => false
  end.

(** ** The store monad *)

(** What a method can throw. *)
Inductive Exn : Type :=
  | ExnError (e : ERRORS)     (* [new Error(ERRORS.e)] *)
  | ExnTypeError              (* member access on [null] or [undefined] *)
  | ExnExternal.              (* a collaborator threw or its promise rejected *)

Inductive Res (A : Type) : Type :=
  | Ok (a : A)
  | Throw (x : Exn).
Arguments Ok {A} a.
Arguments Throw {A} x.

(** The store object [this] of type [S] together with the world. *)
Record Store (S : Type) : Type := {
  this : S;
  world : World;
}.
Arguments this {S} _.
Arguments world {S} _.

Definition M (S A : Type) : Type := Store S → Store S * Res A.

Definition ret {S A : Type} (a : A) : M S A := λ st, (st, Ok a).

Definition bind {S A B : Type} (m : M S A) (k : A → M S B) : M S B :=
  λ st, match m st with
        | (st', Ok a) => k a st'
        | (st', Throw x) => (st', Throw x)
        end.

Definition throw {S A : Type} (x : Exn) : M S A := λ st, (st, Throw x).

(** [try { body } catch (err) { handler }]: what [body] did before it threw
    stays done. *)
Definition try_catch {S A : Type} (body : M S A) (handler : Exn → M S A)
    : M S A :=
  λ st, match body st with
        | (st', Ok a) => (st', Ok a)
        | (st', Throw x) => handler x st'
        end.

Definition get_this {S : Type} : M S S := λ st, (st, Ok (this st)).

Definition modify_this {S : Type} (f : S → S) : M S unit :=
  λ st, ({| this := f (this st); world := world st |}, Ok tt).

Definition modify_world {S : Type} (f : World → World) : M S unit :=
  λ st, ({| this := this st; world := f (world st) |}, Ok tt).

Declare Scope store_scope.
Delimit Scope store_scope with store.
Notation "x <- m ;; k" := (bind m (λ x, k))
  (at level 100, m at next level, right associativity) : store_scope.
Notation "m ;; k" := (bind m (λ _, k))
  (at level 100, right associativity) : store_scope.
Open Scope store_scope.

(** The store after running a method, and what the method returned. *)
Definition exec {S A : Type} (m : M S A) (st : Store S) : Store S := (m st).1.
Definition result {S A : Type} (m : M S A) (st : Store S) : Res A := (m st).2.

Definition when {S : Type} (b : bool) (m : M S unit) : M S unit :=
  if b then m else ret tt.

(** Record a call on a collaborator. *)
Definition emit {S : Type} (e : Effect) : M S unit :=
  modify_world (λ w, {| listeners := listeners w; effects := effects w ++ [e] |}).

(** The answer of a fallible collaborator: [None] when it throws or its
    promise rejects. *)
Definition await {S A : Type} (answer : option A) : M S A :=
  match answer with
  | Some a => ret a
  | None => throw ExnExternal
  end.

(** [provider.on(event, cb)] *)
Definition provider_on_call {S : Type} (p : Provider) (e : EventName)
    (cb : Callback) : M S unit :=
  emit (EffOn p e cb) ;;
  modify_world (λ w, {| listeners := (p, e, cb) :: listeners w;
                        effects := effects w |}).

(** [provider.removeListener(event, cb)] *)
Definition provider_removeListener {S : Type} (p : Provider) (e : EventName)
    (cb : Callback) : M S unit :=
  emit (EffRemoveListener p e cb) ;;
  modify_world (λ w, {| listeners := remove_first (p, e, cb) (listeners w);
                        effects := effects w |}).

(** [blockchainFetchStore.blockchainFetch(force)], the data-refresh
    collaborator. *)
Definition blockchainFetch {S : Type} (force : bool) : M S unit :=
  emit (EffBlockchainFetch force).

(** Answers of the collaborators during one [loadWeb3()]:
    [new ethers.providers.JsonRpcProvider(backupUrls[supportedChainId])] and
    [web3.getNetwork()]. *)
Record Web3IO : Type := {
  io_JsonRpcProvider : option Library;
  io_backupNetwork : option Network;
}.

(** Answers of the collaborators during one [loadProvider(provider)]:
    [library.close()] (asked only when the old library has [close]),
    [new ethers.providers.Web3Provider(provider)] (full variant),
    [web3.getNetwork()] and [web3.listAccounts()] (full variant). *)
Record InjectedIO : Type := {
  io_close : option unit;
  io_Web3Provider : option Library;
  io_injectedNetwork : option Network;
  io_listAccounts : option (list string);
}.

(** ** The ethers library *)

(** The interface description of a contract type.  The ABI files
    ([../abi/BPool] and the others) are data outside the store, so the table
    [schema] is a parameter. *)
Definition Abi : Type := string.

(** [library.getSigner(account)] *)
Record JsonRpcSigner : Type := {
  signer_library : Library;
  signer_account : JsVal string;
}.

(** What a contract is bound to: an [UncheckedJsonRpcSigner] wrapping a
    signer, or the library itself (a read-only binding). *)
Inductive SignerOrProvider : Type :=
  | UncheckedJsonRpcSigner (s : JsonRpcSigner)
  | ReadOnly (library : JsVal Library).

(** An [ethers.Contract]: the constructor stores the address it was given. *)
Record Contract : Type := {
  contract_address : string;
  contract_type : ContractTypes;
  contract_interface : Abi;
  contract_signerOrProvider : SignerOrProvider;
}.

(** The parts of ethers and of the ABI table the store relies on.
    [ethers_getSigner] and [ethers_encode] answer [None] when the call
    throws ([encode] also when [interface.functions[action]] is missing). *)
Record Ethers : Type := {
  schema : ContractTypes → Abi;
  ethers_getSigner : Library → JsVal string → option JsonRpcSigner;
  ethers_encode : Abi → string → list JsParam → option string;
}.

Record Transaction : Type := {
  data : string;
  to : string;
  value : Z;
}.

Record FunctionCall : Type := {
  fc_contractType : ContractTypes;
  fc_contractAddress : string;
  fc_action : string;
  fc_params : list JsParam;
  fc_overrides : JsVal Overrides;
}.

(** ** Methods that do not depend on the variant *)

(** [library.getSigner(account)]: a [TypeError] when [library] is [null] or
    [undefined], otherwise the call on the RPC client. *)
Definition library_getSigner {S : Type} (E : Ethers)
    (library : JsVal Library) (account : JsVal string) : M S JsonRpcSigner :=
  match library with
  | JsValue lib =>
      emit (EffGetSigner lib account) ;;
      await (ethers_getSigner E lib account)
  | JsUndefined | JsNull => throw ExnTypeError
  end.

(** The argument object of [console.debug] evaluates
    [library.getSigner(account)] before the conditional does. *)
Definition getProviderOrSigner {S : Type} (E : Ethers)
    (library : JsVal Library) (account : JsVal string) : M S SignerOrProvider :=
  library_getSigner E library account ;;
  if truthy truthy_string account
  then signer <- library_getSigner E library account ;;
       ret (UncheckedJsonRpcSigner signer)
  else ret (ReadOnly library).

(** [new ethers.Contract(address, schema[type], signerOrProvider)] *)
Definition new_Contract {S : Type} (E : Ethers) (address : string)
    (type : ContractTypes) (sp : SignerOrProvider) : M S Contract :=
  emit (EffNewContract address type) ;;
  ret {| contract_address := address;
         contract_type := type;
         contract_interface := schema E type;
         contract_signerOrProvider := sp |}.

(** [contract.interface.functions[action].encode(params)] *)
Definition contract_encode {S : Type} (E : Ethers) (contract : Contract)
    (action : string) (params : list JsParam) : M S string :=
  emit (EffEncode (contract_type contract) action params) ;;
  await (ethers_encode E (contract_interface contract) action params).

(** [fetchUserBlockchainData(account)]: three calls on other stores, the
    second one awaited. *)
Definition fetchUserBlockchainData {S : Type} (account : string)
    (io_fetch : option unit) : M S unit :=
  emit (EffCheckPendingTransactions account) ;;
  emit (EffFetchBalancerTokenData account) ;;
  await io_fetch ;;
  emit (EffLoadTokens account).

(** The block of [loadProvider] that closes the old library:
    [if (library && library.close) await library.close()]. *)
Definition close_old_library {S : Type} (library : JsVal Library)
    (io : InjectedIO) : M S unit :=
  match library with
  | JsValue lib =>
      when (library_close lib)
        (emit (EffLibraryClose lib) ;;
         await (io_close io))
  | JsUndefined | JsNull => ret tt
  end.

(** * The full variant *)

Module Full.

(** ** Data *)

Record ChainData : Type := {
  currentBlockNumber : Z;
}.

(** [providerStatus].  The object starts as [{}], so every member the
    constructor does not assign starts as [undefined]. *)
Record ProviderStatus : Type := {
  activeChainId : JsVal Z;
  account : JsVal string;
  library : JsVal Library;
  active : bool;
  injectedLoaded : bool;
  injectedActive : bool;
  injectedChainId : JsVal Z;
  injectedWeb3 : JsVal Library;
  backUpLoaded : bool;
  backUpWeb3 : JsVal Library;
  activeProvider : ActiveProvider;
  error : JsVal ERRORS;
}.

(** The descriptor the Gnosis Safe SDK passes to [onSafeInfo]. *)
Record SafeInfo : Type := {
  safeAddress : string;
  safe_network : string;
  ethBalance : string;
}.

Record SafeStatus : Type := {
  safeInfo : JsVal SafeInfo;
}.

Record ProviderStore : Type := {
  chainData : ChainData;
  providerStatus : ProviderStatus;
  safeStatus : SafeStatus;
}.

(** [this.providerStatus.f = v], one function per member. *)
Definition set_activeChainId (v : JsVal Z) (ps : ProviderStatus) : ProviderStatus :=
  {| activeChainId := v;
     account := account ps;
     library := library ps;
     active := active ps;
     injectedLoaded := injectedLoaded ps;
     injectedActive := injectedActive ps;
     injectedChainId := injectedChainId ps;
     injectedWeb3 := injectedWeb3 ps;
     backUpLoaded := backUpLoaded ps;
     backUpWeb3 := backUpWeb3 ps;
     activeProvider := activeProvider ps;
     error := error ps |}.

Definition set_account (v : JsVal string) (ps : ProviderStatus) : ProviderStatus :=
  {| activeChainId := activeChainId ps;
     account := v;
     library := library ps;
     active := active ps;
     injectedLoaded := injectedLoaded ps;
     injectedActive := injectedActive ps;
     injectedChainId := injectedChainId ps;
     injectedWeb3 := injectedWeb3 ps;
     backUpLoaded := backUpLoaded ps;
     backUpWeb3 := backUpWeb3 ps;
     activeProvider := activeProvider ps;
     error := error ps |}.

Definition set_library (v : JsVal Library) (ps : ProviderStatus) : ProviderStatus :=
  {| activeChainId := activeChainId ps;
     account := account ps;
     library := v;
     active := active ps;
     injectedLoaded := injectedLoaded ps;
     injectedActive := injectedActive ps;
     injectedChainId := injectedChainId ps;
     injectedWeb3 := injectedWeb3 ps;
     backUpLoaded := backUpLoaded ps;
     backUpWeb3 := backUpWeb3 ps;
     activeProvider := activeProvider ps;
     error := error ps |}.

Definition set_active (v : bool) (ps : ProviderStatus) : ProviderStatus :=
  {| activeChainId := activeChainId ps;
     account := account ps;
     library := library ps;
     active := v;
     injectedLoaded := injectedLoaded ps;
     injectedActive := injectedActive ps;
     injectedChainId := injectedChainId ps;
     injectedWeb3 := injectedWeb3 ps;
     backUpLoaded := backUpLoaded ps;
     backUpWeb3 := backUpWeb3 ps;
     activeProvider := activeProvider ps;
     error := error ps |}.

Definition set_injectedLoaded (v : bool) (ps : ProviderStatus) : ProviderStatus :=
  {| activeChainId := activeChainId ps;
     account := account ps;
     library := library ps;
     active := active ps;
     injectedLoaded := v;
     injectedActive := injectedActive ps;
     injectedChainId := injectedChainId ps;
     injectedWeb3 := injectedWeb3 ps;
     backUpLoaded := backUpLoaded ps;
     backUpWeb3 := backUpWeb3 ps;
     activeProvider := activeProvider ps;
     error := error ps |}.

Definition set_injectedActive (v : bool) (ps : ProviderStatus) : ProviderStatus :=
  {| activeChainId := activeChainId ps;
     account := account ps;
     library := library ps;
     active := active ps;
     injectedLoaded := injectedLoaded ps;
     injectedActive := v;
     injectedChainId := injectedChainId ps;
     injectedWeb3 := injectedWeb3 ps;
     backUpLoaded := backUpLoaded ps;
     backUpWeb3 := backUpWeb3 ps;
     activeProvider := activeProvider ps;
     error := error ps |}.

Definition set_injectedChainId (v : JsVal Z) (ps : ProviderStatus) : ProviderStatus :=
  {| activeChainId := activeChainId ps;
     account := account ps;
     library := library ps;
     active := active ps;
     injectedLoaded := injectedLoaded ps;
     injectedActive := injectedActive ps;
     injectedChainId := v;
     injectedWeb3 := injectedWeb3 ps;
     backUpLoaded := backUpLoaded ps;
     backUpWeb3 := backUpWeb3 ps;
     activeProvider := activeProvider ps;
     error := error ps |}.

Definition set_injectedWeb3 (v : JsVal Library) (ps : ProviderStatus) : ProviderStatus :=
  {| activeChainId := activeChainId ps;
     account := account ps;
     library := library ps;
     active := active ps;
     injectedLoaded := injectedLoaded ps;
     injectedActive := injectedActive ps;
     injectedChainId := injectedChainId ps;
     injectedWeb3 := v;
     backUpLoaded := backUpLoaded ps;
     backUpWeb3 := backUpWeb3 ps;
     activeProvider := activeProvider ps;
     error := error ps |}.

Definition set_backUpLoaded (v : bool) (ps : ProviderStatus) : ProviderStatus :=
  {| activeChainId := activeChainId ps;
     account := account ps;
     library := library ps;
     active := active ps;
     injectedLoaded := injectedLoaded ps;
     injectedActive := injectedActive ps;
     injectedChainId := injectedChainId ps;
     injectedWeb3 := injectedWeb3 ps;
     backUpLoaded := v;
     backUpWeb3 := backUpWeb3 ps;
     activeProvider := activeProvider ps;
     error := error ps |}.

Definition set_backUpWeb3 (v : JsVal Library) (ps : ProviderStatus) : ProviderStatus :=
  {| activeChainId := activeChainId ps;
     account := account ps;
     library := library ps;
     active := active ps;
     injectedLoaded := injectedLoaded ps;
     injectedActive := injectedActive ps;
     injectedChainId := injectedChainId ps;
     injectedWeb3 := injectedWeb3 ps;
     backUpLoaded := backUpLoaded ps;
     backUpWeb3 := v;
     activeProvider := activeProvider ps;
     error := error ps |}.

Definition set_activeProvider (v : ActiveProvider) (ps : ProviderStatus) : ProviderStatus :=
  {| activeChainId := activeChainId ps;
     account := account ps;
     library := library ps;
     active := active ps;
     injectedLoaded := injectedLoaded ps;
     injectedActive := injectedActive ps;
     injectedChainId := injectedChainId ps;
     injectedWeb3 := injectedWeb3 ps;
     backUpLoaded := backUpLoaded ps;
     backUpWeb3 := backUpWeb3 ps;
     activeProvider := v;
     error := error ps |}.

Definition set_error (v : JsVal ERRORS) (ps : ProviderStatus) : ProviderStatus :=
  {| activeChainId := activeChainId ps;
     account := account ps;
     library := library ps;
     active := active ps;
     injectedLoaded := injectedLoaded ps;
     injectedActive := injectedActive ps;
     injectedChainId := injectedChainId ps;
     injectedWeb3 := injectedWeb3 ps;
     backUpLoaded := backUpLoaded ps;
     backUpWeb3 := backUpWeb3 ps;
     activeProvider := activeProvider ps;
     error := v |}.

(** ** The constructor *)

Definition initial_status : ProviderStatus :=
  {| activeChainId := JsUndefined;
     account := JsUndefined;
     library := JsUndefined;
     active := false;
     injectedLoaded := false;
     injectedActive := false;
     injectedChainId := JsUndefined;
     injectedWeb3 := JsUndefined;
     backUpLoaded := false;
     backUpWeb3 := JsUndefined;
     activeProvider := APNull;
     error := JsUndefined |}.

Definition initial_store : ProviderStore :=
  {| chainData := {| currentBlockNumber := -1 |};
     providerStatus := initial_status;
     safeStatus := {| safeInfo := JsUndefined |} |}.

Definition init : Store ProviderStore :=
  {| this := initial_store; world := empty_world |}.

(** ** Access to [this] *)

Definition assign (f : ProviderStatus → ProviderStatus) : M ProviderStore unit :=
  modify_this (λ s, {| chainData := chainData s;
                       providerStatus := f (providerStatus s);
                       safeStatus := safeStatus s |}).

Definition read_status : M ProviderStore ProviderStatus :=
  s <- get_this ;; ret (providerStatus s).

Definition status (st : Store ProviderStore) : ProviderStatus :=
  providerStatus (this st).

(** ** Methods *)

Definition setSafeInfo (info : SafeInfo) : M ProviderStore unit :=
  modify_this (λ s, {| chainData := chainData s;
                       providerStatus := providerStatus s;
                       safeStatus := {| safeInfo := JsValue info |} |}).

Definition getCurrentBlockNumber : M ProviderStore Z :=
  s <- get_this ;; ret (currentBlockNumber (chainData s)).

Definition setCurrentBlockNumber (blockNumber : Z) : M ProviderStore unit :=
  modify_this (λ s, {| chainData := {| currentBlockNumber := blockNumber |};
                       providerStatus := providerStatus s;
                       safeStatus := safeStatus s |}).

Definition getContract (E : Ethers) (type : ContractTypes) (address : string)
    (signerAccount : JsVal string) : M ProviderStore Contract :=
  ps <- read_status ;;
  if truthy truthy_string signerAccount
  then sp <- getProviderOrSigner E (library ps) signerAccount ;;
       new_Contract E address type sp
  else new_Contract E address type (ReadOnly (library ps)).

Definition encodeTransaction (E : Ethers) (contractType : ContractTypes)
    (contractAddress : string) (action : string) (params : list JsParam)
    (overrides : JsVal Overrides) : M ProviderStore Transaction :=
  ps <- read_status ;;
  let chainId := activeChainId ps in
  let account := account ps in
  let overrides :=
    if truthy truthy_object overrides then overrides
    else JsValue empty_overrides in
  if negb (truthy truthy_string account)
  then throw (ExnError BlockchainActionNoAccount)
  else if negb (truthy truthy_number chainId)
  then throw (ExnError BlockchainActionNoChainId)
  else
    contract <- getContract E contractType contractAddress account ;;
    data <- contract_encode E contract action params ;;
    ret {| data := data; to := contract_address contract; value := 0 |}.

(** [transactions.map(... => this.encodeTransaction(...))] *)
Fixpoint sendTransactions (E : Ethers) (transactions : list FunctionCall)
    : M ProviderStore (list Transaction) :=
  match transactions with
  | [] => ret []
  | c :: rest =>
      t <- encodeTransaction E (fc_contractType c) (fc_contractAddress c)
             (fc_action c) (fc_params c) (fc_overrides c) ;;
      ts <- sendTransactions E rest ;;
      ret (t :: ts)
  end.

Definition sendTransaction (E : Ethers) (contractType : ContractTypes)
    (contractAddress : string) (action : string) (params : list JsParam)
    (overrides : JsVal Overrides) : M ProviderStore (list Transaction) :=
  sendTransactions E [ {| fc_contractType := contractType;
                          fc_contractAddress := contractAddress;
                          fc_action := action;
                          fc_params := params;
                          fc_overrides := overrides |} ].

(** [this.safeStatus.safeInfo && this.safeStatus.safeInfo.safeAddress]:
    the left operand when it is [undefined] or [null], the address
    otherwise. *)
Definition safeInfo_and_safeAddress (ss : SafeStatus) : JsVal string :=
  match safeInfo ss with
  | JsUndefined => JsUndefined
  | JsNull => JsNull
  | JsValue info => JsValue (safeAddress info)
  end.

(** [loadWeb3()] (its parameter [provider = null] is never read).  The
    [try] block assigns nothing before the awaited network query; the [catch]
    block ends in [return], so [active = true] is reached only when the [try]
    block ran to its end. *)
Definition loadWeb3 (io : Web3IO) : M ProviderStore unit :=
  loaded <-
    try_catch
      (emit EffNewJsonRpcProvider ;;
       web3 <- await (io_JsonRpcProvider io) ;;
       emit (EffGetNetwork web3) ;;
       network <- await (io_backupNetwork io) ;;
       assign (set_injectedActive false) ;;
       assign (set_backUpLoaded true) ;;
       s <- get_this ;;
       assign (set_account (safeInfo_and_safeAddress (safeStatus s))) ;;
       assign (set_activeChainId (JsValue (chainId network))) ;;
       assign (set_backUpWeb3 (JsValue web3)) ;;
       assign (set_library (JsValue web3)) ;;
       assign (set_activeProvider APBackup) ;;
       ret true)
      (λ err,
       assign (set_injectedActive false) ;;
       assign (set_backUpLoaded false) ;;
       assign (set_account JsNull) ;;
       assign (set_activeChainId JsNull) ;;
       assign (set_backUpWeb3 JsNull) ;;
       assign (set_library JsNull) ;;
       assign (set_active false) ;;
       assign (set_error (JsValue NoWeb3)) ;;
       assign (set_activeProvider APNull) ;;
       ret false) ;;
  when loaded (assign (set_active true)).

Definition handleNetworkChanged (networkId : Z) (io : Web3IO)
    : M ProviderStore unit :=
  ps <- read_status ;;
  when (active ps)
    (loadWeb3 io ;;
     blockchainFetch true).

Definition handleClose (io : Web3IO) : M ProviderStore unit :=
  ps <- read_status ;;
  when (active ps) (loadWeb3 io).

(** [io] answers the [loadWeb3()] that [handleClose()] may start. *)
Definition handleAccountsChanged (accounts : list string) (io : Web3IO)
    : M ProviderStore unit :=
  match accounts with
  | [] => handleClose io
  | account0 :: _ =>
      assign (set_account (JsValue account0)) ;;
      blockchainFetch true
  end.

(** The listeners [loadProvider] registers, in the order of its [on] calls. *)
Definition store_listeners : list (EventName * Callback) :=
  [ (chainChanged, this_handleNetworkChanged);
    (accountsChanged, this_handleAccountsChanged);
    (close, this_handleClose);
    (networkChanged, this_handleNetworkChanged) ].

(** The block of [loadProvider] that removes the old listeners:
    [if (activeProvider && activeProvider.on) { removeListener ... }].
    The string ['backup'] has no member [on]. *)
Definition remove_old_listeners (previous : ActiveProvider)
    : M ProviderStore unit :=
  match previous with
  | APHandle old =>
      when (provider_on old)
        (provider_removeListener old chainChanged this_handleNetworkChanged ;;
         provider_removeListener old accountsChanged this_handleAccountsChanged ;;
         provider_removeListener old close this_handleClose ;;
         provider_removeListener old networkChanged this_handleNetworkChanged)
  | APNull | APBackup => ret tt
  end.

(** The block that subscribes the listeners: [if (provider.on) { on ... }]. *)
Definition subscribe_listeners (provider : Provider) : M ProviderStore unit :=
  when (provider_on provider)
    (provider_on_call provider chainChanged this_handleNetworkChanged ;;
     provider_on_call provider accountsChanged this_handleAccountsChanged ;;
     provider_on_call provider close this_handleClose ;;
     provider_on_call provider networkChanged this_handleNetworkChanged).

(** The [try] block of [loadProvider]. *)
Definition loadProvider_try (provider : Provider) (io : InjectedIO)
    : M ProviderStore unit :=
  ps <- read_status ;;
  remove_old_listeners (activeProvider ps) ;;
  ps <- read_status ;;
  close_old_library (library ps) io ;;
  emit (EffNewWeb3Provider provider) ;;
  web3 <- await (io_Web3Provider io) ;;
  when (isMetaMask provider) (emit (EffAutoRefreshOff provider)) ;;
  subscribe_listeners provider ;;
  emit (EffGetNetwork web3) ;;
  network <- await (io_injectedNetwork io) ;;
  emit (EffListAccounts web3) ;;
  accounts <- await (io_listAccounts io) ;;
  let account :=
    match accounts with
    | [] => JsNull
    | account0 :: _ => JsValue account0
    end in
  assign (set_injectedLoaded true) ;;
  assign (set_injectedChainId (JsValue (chainId network))) ;;
  assign (set_account account) ;;
  assign (set_injectedWeb3 (JsValue web3)) ;;
  assign (set_activeProvider (APHandle provider)).

(** The [catch] block of [loadProvider]. *)
Definition loadProvider_catch (err : Exn) : M ProviderStore unit :=
  assign (set_injectedLoaded false) ;;
  assign (set_injectedChainId JsNull) ;;
  assign (set_account JsNull) ;;
  assign (set_library JsNull) ;;
  assign (set_active false) ;;
  assign (set_activeProvider APNull).

Definition loadProvider (provider : Provider) (io : InjectedIO)
    : M ProviderStore unit :=
  try_catch (loadProvider_try provider io) loadProvider_catch.

(** ** All methods of the store as one type *)

Inductive Op : Type :=
  | OpSetSafeInfo (info : SafeInfo)
  | OpGetCurrentBlockNumber
  | OpSetCurrentBlockNumber (blockNumber : Z)
  | OpFetchUserBlockchainData (account : string) (io_fetch : option unit)
  | OpGetProviderOrSigner (library : JsVal Library) (account : JsVal string)
  | OpGetContract (type : ContractTypes) (address : string)
      (signerAccount : JsVal string)
  | OpEncodeTransaction (contractType : ContractTypes)
      (contractAddress : string) (action : string) (params : list JsParam)
      (overrides : JsVal Overrides)
  | OpSendTransaction (contractType : ContractTypes)
      (contractAddress : string) (action : string) (params : list JsParam)
      (overrides : JsVal Overrides)
  | OpSendTransactions (transactions : list FunctionCall)
  | OpHandleNetworkChanged (networkId : Z) (io : Web3IO)
  | OpHandleClose (io : Web3IO)
  | OpHandleAccountsChanged (accounts : list string) (io : Web3IO)
  | OpLoadProvider (provider : Provider) (io : InjectedIO)
  | OpLoadWeb3 (io : Web3IO).

Definition discard {A : Type} (m : M ProviderStore A) : M ProviderStore unit :=
  m ;; ret tt.

Definition run_op (E : Ethers) (o : Op) : M ProviderStore unit :=
  match o with
  | OpSetSafeInfo info => setSafeInfo info
  | OpGetCurrentBlockNumber => discard getCurrentBlockNumber
  | OpSetCurrentBlockNumber n => setCurrentBlockNumber n
  | OpFetchUserBlockchainData a io => fetchUserBlockchainData a io
  | OpGetProviderOrSigner l a => discard (getProviderOrSigner E l a)
  | OpGetContract t a s => discard (getContract E t a s)
  | OpEncodeTransaction t a f ps ov => discard (encodeTransaction E t a f ps ov)
  | OpSendTransaction t a f ps ov => discard (sendTransaction E t a f ps ov)
  | OpSendTransactions ts => discard (sendTransactions E ts)
  | OpHandleNetworkChanged n io => handleNetworkChanged n io
  | OpHandleClose io => handleClose io
  | OpHandleAccountsChanged l io => handleAccountsChanged l io
  | OpLoadProvider p io => loadProvider p io
  | OpLoadWeb3 io => loadWeb3 io
  end.

(** A run of methods, each to completion, an exception ending its method
    only. *)
Fixpoint run_ops (E : Ethers) (os : list Op) (st : Store ProviderStore)
    : Store ProviderStore :=
  match os with
  | [] => st
  | o :: os' => run_ops E os' (exec (run_op E o) st)
  end.

(** A run of [loadProvider] calls. *)
Definition run_loads (calls : list (Provider * InjectedIO))
    (st : Store ProviderStore) : Store ProviderStore :=
  foldl (λ st c, exec (loadProvider c.1 c.2) st) st calls.

End Full.

(** * The compact variant *)

Module Compact.

(** ** Data *)

Record ChainData : Type := {
  currentBlockNumber : Z;
}.

Record ProviderStatus : Type := {
  activeChainId : JsVal Z;
  library : JsVal Library;
  active : bool;
  backUpLoaded : bool;
  activeProvider : ActiveProvider;
  error : JsVal ERRORS;
}.

Record ProviderStore : Type := {
  chainData : ChainData;
  providerStatus : ProviderStatus;
}.

Definition set_activeChainId (v : JsVal Z) (ps : ProviderStatus) : ProviderStatus :=
  {| activeChainId := v;
     library := library ps;
     active := active ps;
     backUpLoaded := backUpLoaded ps;
     activeProvider := activeProvider ps;
     error := error ps |}.

Definition set_library (v : JsVal Library) (ps : ProviderStatus) : ProviderStatus :=
  {| activeChainId := activeChainId ps;
     library := v;
     active := active ps;
     backUpLoaded := backUpLoaded ps;
     activeProvider := activeProvider ps;
     error := error ps |}.

Definition set_active (v : bool) (ps : ProviderStatus) : ProviderStatus :=
  {| activeChainId := activeChainId ps;
     library := library ps;
     active := v;
     backUpLoaded := backUpLoaded ps;
     activeProvider := activeProvider ps;
     error := error ps |}.

Definition set_backUpLoaded (v : bool) (ps : ProviderStatus) : ProviderStatus :=
  {| activeChainId := activeChainId ps;
     library := library ps;
     active := active ps;
     backUpLoaded := v;
     activeProvider := activeProvider ps;
     error := error ps |}.

Definition set_activeProvider (v : ActiveProvider) (ps : ProviderStatus) : ProviderStatus :=
  {| activeChainId := activeChainId ps;
     library := library ps;
     active := active ps;
     backUpLoaded := backUpLoaded ps;
     activeProvider := v;
     error := error ps |}.

Definition set_error (v : JsVal ERRORS) (ps : ProviderStatus) : ProviderStatus :=
  {| activeChainId := activeChainId ps;
     library := library ps;
     active := active ps;
     backUpLoaded := backUpLoaded ps;
     activeProvider := activeProvider ps;
     error := v |}.

(** ** The constructor *)

Definition initial_status : ProviderStatus :=
  {| activeChainId := JsUndefined;
     library := JsUndefined;
     active := false;
     backUpLoaded := false;
     activeProvider := APNull;
     error := JsUndefined |}.

Definition initial_store : ProviderStore :=
  {| chainData := {| currentBlockNumber := -1 |};
     providerStatus := initial_status |}.

Definition init : Store ProviderStore :=
  {| this := initial_store; world := empty_world |}.

(** ** Access to [this] *)

Definition assign (f : ProviderStatus → ProviderStatus) : M ProviderStore unit :=
  modify_this (λ s, {| chainData := chainData s;
                       providerStatus := f (providerStatus s) |}).

Definition read_status : M ProviderStore ProviderStatus :=
  s <- get_this ;; ret (providerStatus s).

Definition status (st : Store ProviderStore) : ProviderStatus :=
  providerStatus (this st).

(** ** Methods *)

Definition getCurrentBlockNumber : M ProviderStore Z :=
  s <- get_this ;; ret (currentBlockNumber (chainData s)).

Definition setCurrentBlockNumber (blockNumber : Z) : M ProviderStore unit :=
  modify_this (λ s, {| chainData := {| currentBlockNumber := blockNumber |};
                       providerStatus := providerStatus s |}).

Definition getContract (E : Ethers) (type : ContractTypes) (address : string)
    (signerAccount : JsVal string) : M ProviderStore Contract :=
  ps <- read_status ;;
  if truthy truthy_string signerAccount
  then sp <- getProviderOrSigner E (library ps) signerAccount ;;
       new_Contract E address type sp
  else new_Contract E address type (ReadOnly (library ps)).

Definition loadWeb3 (io : Web3IO) : M ProviderStore unit :=
  loaded <-
    try_catch
      (emit EffNewJsonRpcProvider ;;
       web3 <- await (io_JsonRpcProvider io) ;;
       emit (EffGetNetwork web3) ;;
       network <- await (io_backupNetwork io) ;;
       assign (set_backUpLoaded true) ;;
       assign (set_activeChainId (JsValue (chainId network))) ;;
       assign (set_library (JsValue web3)) ;;
       assign (set_activeProvider APBackup) ;;
       ret true)
      (λ err,
       assign (set_backUpLoaded false) ;;
       assign (set_activeChainId JsNull) ;;
       assign (set_library JsNull) ;;
       assign (set_active false) ;;
       assign (set_error (JsValue NoWeb3)) ;;
       assign (set_activeProvider APNull) ;;
       ret false) ;;
  when loaded (assign (set_active true)).

Definition handleNetworkChanged (networkId : Z) (io : Web3IO)
    : M ProviderStore unit :=
  ps <- read_status ;;
  when (active ps)
    (loadWeb3 io ;;
     blockchainFetch true).

Definition handleClose (io : Web3IO) : M ProviderStore unit :=
  ps <- read_status ;;
  when (active ps) (loadWeb3 io).

Definition store_listeners : list (EventName * Callback) :=
  [ (chainChanged, this_handleNetworkChanged);
    (close, this_handleClose);
    (networkChanged, this_handleNetworkChanged) ].

Definition remove_old_listeners (previous : ActiveProvider)
    : M ProviderStore unit :=
  match previous with
  | APHandle old =>
      when (provider_on old)
        (provider_removeListener old chainChanged this_handleNetworkChanged ;;
         provider_removeListener old close this_handleClose ;;
         provider_removeListener old networkChanged this_handleNetworkChanged)
  | APNull | APBackup => ret tt
  end.

Definition subscribe_listeners (provider : Provider) : M ProviderStore unit :=
  when (provider_on provider)
    (provider_on_call provider chainChanged this_handleNetworkChanged ;;
     provider_on_call provider close this_handleClose ;;
     provider_on_call provider networkChanged this_handleNetworkChanged).

(** The [try] block of [loadProvider].  This variant builds no RPC client on
    the handle and asks it nothing: of [io] only [io_close] is consulted. *)
Definition loadProvider_try (provider : Provider) (io : InjectedIO)
    : M ProviderStore unit :=
  ps <- read_status ;;
  remove_old_listeners (activeProvider ps) ;;
  ps <- read_status ;;
  close_old_library (library ps) io ;;
  when (isMetaMask provider) (emit (EffAutoRefreshOff provider)) ;;
  subscribe_listeners provider ;;
  assign (set_activeProvider (APHandle provider)).

Definition loadProvider_catch (err : Exn) : M ProviderStore unit :=
  assign (set_library JsNull) ;;
  assign (set_active false) ;;
  assign (set_activeProvider APNull).

Definition loadProvider (provider : Provider) (io : InjectedIO)
    : M ProviderStore unit :=
  try_catch (loadProvider_try provider io) loadProvider_catch.

(** ** All methods of the store as one type *)

Inductive Op : Type :=
  | OpGetCurrentBlockNumber
  | OpSetCurrentBlockNumber (blockNumber : Z)
  | OpFetchUserBlockchainData (account : string) (io_fetch : option unit)
  | OpGetProviderOrSigner (library : JsVal Library) (account : JsVal string)
  | OpGetContract (type : ContractTypes) (address : string)
      (signerAccount : JsVal string)
  | OpHandleNetworkChanged (networkId : Z) (io : Web3IO)
  | OpHandleClose (io : Web3IO)
  | OpLoadProvider (provider : Provider) (io : InjectedIO)
  | OpLoadWeb3 (io : Web3IO).

Definition discard {A : Type} (m : M ProviderStore A) : M ProviderStore unit :=
  m ;; ret tt.

Definition run_op (E : Ethers) (o : Op) : M ProviderStore unit :=
  match o with
  | OpGetCurrentBlockNumber => discard getCurrentBlockNumber
  | OpSetCurrentBlockNumber n => setCurrentBlockNumber n
  | OpFetchUserBlockchainData a io => fetchUserBlockchainData a io
  | OpGetProviderOrSigner l a => discard (getProviderOrSigner E l a)
  | OpGetContract t a s => discard (getContract E t a s)
  | OpHandleNetworkChanged n io => handleNetworkChanged n io
  | OpHandleClose io => handleClose io
  | OpLoadProvider p io => loadProvider p io
  | OpLoadWeb3 io => loadWeb3 io
  end.

Fixpoint run_ops (E : Ethers) (os : list Op) (st : Store ProviderStore)
    : Store ProviderStore :=
  match os with
  | [] => st
  | o :: os' => run_ops E os' (exec (run_op E o) st)
  end.

Definition run_loads (calls : list (Provider * InjectedIO))
    (st : Store ProviderStore) : Store ProviderStore :=
  foldl (λ st c, exec (loadProvider c.1 c.2) st) st calls.

End Compact.

(** * Notions used to state the properties *)

Definition answered {A : Type} (answer : option A) : bool :=
  match answer with
  | Some _ => true
  | None => false
  end.

(** The registrations of the listeners [ls] on the handle [p], most recently
    added first. *)
Definition subscriptions_of (ls : list (EventName * Callback)) (p : Provider)
    : list Subscription :=
  reverse ((λ ec, (p, ec.1, ec.2)) <$> ls).

(** The [removeListener] calls made on the previously active provider. *)
Definition detach_effects (ls : list (EventName * Callback))
    (previous : ActiveProvider) : list Effect :=
  match previous with
  | APHandle old =>
      if provider_on old
      then (λ ec, EffRemoveListener old ec.1 ec.2) <$> ls
      else []
  | APNull | APBackup => []
  end.

(** The [on] calls made on the new handle. *)
Definition attach_effects (ls : list (EventName * Callback)) (p : Provider)
    : list Effect :=
  if provider_on p then (λ ec, EffOn p ec.1 ec.2) <$> ls else [].

(** The registry after the [removeListener] calls on the previous provider. *)
Definition detach_listeners (ls : list (EventName * Callback))
    (previous : ActiveProvider) (reg : list Subscription) : list Subscription :=
  match previous with
  | APHandle old =>
      if provider_on old
      then foldl (λ r ec, remove_first (old, ec.1, ec.2) r) reg ls
      else reg
  | APNull | APBackup => reg
  end.

(** The registry after the [on] calls on the new handle. *)
Definition attach_listeners (ls : list (EventName * Callback)) (p : Provider)
    (reg : list Subscription) : list Subscription :=
  if provider_on p then subscriptions_of ls p ++ reg else reg.

Definition close_effects (library : JsVal Library) : list Effect :=
  match library with
  | JsValue lib => if library_close lib then [EffLibraryClose lib] else []
  | JsUndefined | JsNull => []
  end.

Definition autorefresh_effects (p : Provider) : list Effect :=
  if isMetaMask p then [EffAutoRefreshOff p] else [].

(** Whether [library.close()] is not asked for or answers. *)
Definition close_answered (library : JsVal Library) (io : InjectedIO) : bool :=
  match library with
  | JsValue lib => if library_close lib then answered (io_close io) else true
  | JsUndefined | JsNull => true
  end.

(** Whether the [try] block of the full [loadProvider] runs to its end:
    every collaborator it asks answers. *)
Definition full_try_completes (st : Store Full.ProviderStore)
    (io : InjectedIO) : bool :=
  close_answered (Full.library (Full.status st)) io &&
  answered (io_Web3Provider io) &&
  answered (io_injectedNetwork io) &&
  answered (io_listAccounts io).

(** The same for the compact [loadProvider], which asks only [close]. *)
Definition compact_try_completes (st : Store Compact.ProviderStore)
    (io : InjectedIO) : bool :=
  close_answered (Compact.library (Compact.status st)) io.

(** The registrations the store should hold given its active provider:
    the listeners on that handle when it is an event emitter, none
    otherwise. *)
Definition current_listeners (ls : list (EventName * Callback))
    (active_provider : ActiveProvider) : list Subscription :=
  match active_provider with
  | APHandle p => if provider_on p then subscriptions_of ls p else []
  | APNull | APBackup => []
  end.

(** The listener calls of a run of [loadProvider] calls on [handles]: each
    call first detaches from the provider active before it, then attaches to
    its own handle. *)
Fixpoint listener_log (ls : list (EventName * Callback))
    (previous : ActiveProvider) (handles : list Provider) : list Effect :=
  match handles with
  | [] => []
  | p :: rest =>
      detach_effects ls previous ++ attach_effects ls p ++
      listener_log ls (APHandle p) rest
  end.

(** The active provider after a run of successful [loadProvider] calls. *)
Definition last_handle (previous : ActiveProvider) (handles : list Provider)
    : ActiveProvider :=
  match last handles with
  | Some p => APHandle p
  | None => previous
  end.

(** Every call of the run completes its [try] block. *)
Fixpoint full_loads_succeed (st : Store Full.ProviderStore)
    (calls : list (Provider * InjectedIO)) : Prop :=
  match calls with
  | [] => True
  | c :: rest =>
      full_try_completes st c.2 = true ∧
      full_loads_succeed (exec (Full.loadProvider c.1 c.2) st) rest
  end.

Fixpoint compact_loads_succeed (st : Store Compact.ProviderStore)
    (calls : list (Provider * InjectedIO)) : Prop :=
  match calls with
  | [] => True
  | c :: rest =>
      compact_try_completes st c.2 = true ∧
      compact_loads_succeed (exec (Compact.loadProvider c.1 c.2) st) rest
  end.

(** The registry holds exactly the listeners of the active provider. *)
Definition full_listeners_in_step (st : Store Full.ProviderStore) : Prop :=
  listeners (world st)
  = current_listeners Full.store_listeners
      (Full.activeProvider (Full.status st)).

Definition compact_listeners_in_step (st : Store Compact.ProviderStore)
    : Prop :=
  listeners (world st)
  = current_listeners Compact.store_listeners
      (Compact.activeProvider (Compact.status st)).

(** A method that leaves the store object as it found it (it may still call
    collaborators). *)
Definition frames_this {S A : Type} (m : M S A) : Prop :=
  ∀ st : Store S, this (exec m st) = this st.

(** The connection invariant: [active] implies [library != null] and
    [activeProvider != null]. *)
Definition full_consistent (ps : Full.ProviderStatus) : Prop :=
  Full.active ps = true →
  not_nullish (Full.library ps) ∧ Full.activeProvider ps ≠ APNull.

Definition compact_consistent (ps : Compact.ProviderStatus) : Prop :=
  Compact.active ps = true →
  not_nullish (Compact.library ps) ∧ Compact.activeProvider ps ≠ APNull.

Definition first_account (accounts : list string) : JsVal string :=
  match accounts with
  | [] => JsNull
  | account0 :: _ => JsValue account0
  end.

(** ** Notions for the further properties *)

(** The compact store inside the full one: the members the compact variant
    has, the others forgotten. *)
Definition forget_status (ps : Full.ProviderStatus) : Compact.ProviderStatus :=
  {| Compact.activeChainId := Full.activeChainId ps;
     Compact.library := Full.library ps;
     Compact.active := Full.active ps;
     Compact.backUpLoaded := Full.backUpLoaded ps;
     Compact.activeProvider := Full.activeProvider ps;
     Compact.error := Full.error ps |}.

Definition forget (st : Store Full.ProviderStore) : Store Compact.ProviderStore :=
  {| this :=
       {| Compact.chainData :=
            {| Compact.currentBlockNumber :=
                 Full.currentBlockNumber (Full.chainData (this st)) |};
          Compact.providerStatus := forget_status (Full.status st) |};
     world := world st |}.



Definition full_is_setCurrentBlockNumber (o : Full.Op) : bool :=
  match o with
  | Full.OpSetCurrentBlockNumber _ => true
  | _ => false
  end.

Definition full_is_setSafeInfo (o : Full.Op) : bool :=
  match o with
  | Full.OpSetSafeInfo _ => true
  | _ => false
  end.

(** The descriptor [encodeTransaction] builds for a call once the signer is
    bound: [None] when the encoding throws. *)
Definition descriptor_of (E : Ethers) (c : FunctionCall) : option Transaction :=
  match ethers_encode E (schema E (fc_contractType c)) (fc_action c)
          (fc_params c) with
  | Some d => Some {| data := d; to := fc_contractAddress c; value := 0 |}
  | None => None
  end.

(** The collaborator calls [encodeTransaction] makes for a call on the
    library [lib] with the account [account]. *)
Definition encode_effects (lib : Library) (account : JsVal string)
    (c : FunctionCall) : list Effect :=
  [ EffGetSigner lib account;
    EffGetSigner lib account;
    EffNewContract (fc_contractAddress c) (fc_contractType c);
    EffEncode (fc_contractType c) (fc_action c) (fc_params c) ].

(** What holds of the full store in every state it can reach. *)
Definition full_backup_in_use (ps : Full.ProviderStatus) : Prop :=
  Full.active ps = true →
  Full.backUpLoaded ps = true ∧
  (∃ web3, Full.library ps = JsValue web3 ∧
           Full.backUpWeb3 ps = JsValue web3) ∧
  (∃ id, Full.activeChainId ps = JsValue id).

Definition compact_backup_in_use (ps : Compact.ProviderStatus) : Prop :=
  Compact.active ps = true →
  Compact.backUpLoaded ps = true ∧
  (∃ web3, Compact.library ps = JsValue web3) ∧
  (∃ id, Compact.activeChainId ps = JsValue id).

Definition full_injected_recorded (ps : Full.ProviderStatus) : Prop :=
  Full.injectedActive ps = false ∧
  ∀ p, Full.activeProvider ps = APHandle p →
       Full.injectedLoaded ps = true ∧
       (∃ id, Full.injectedChainId ps = JsValue id) ∧
       (∃ web3, Full.injectedWeb3 ps = JsValue web3).

(** * Example inputs *)

Definition wallet1 : Provider :=
  {| provider_id := 1; provider_on := true; isMetaMask := true |}.

Definition wallet2 : Provider :=
  {| provider_id := 2; provider_on := true; isMetaMask := false |}.

Definition backup_client : Library :=
  {| library_id := 10; library_close := false |}.

Definition injected_client : Library :=
  {| library_id := 11; library_close := false |}.

Definition mainnet : Network := {| chainId := 1; name := "homestead" |}.

Definition web3_ok : Web3IO :=
  {| io_JsonRpcProvider := Some backup_client;
     io_backupNetwork := Some mainnet |}.

Definition web3_unreachable : Web3IO :=
  {| io_JsonRpcProvider := Some backup_client;
     io_backupNetwork := None |}.

Definition injected_ok (accounts : list string) : InjectedIO :=
  {| io_close := Some tt;
     io_Web3Provider := Some injected_client;
     io_injectedNetwork := Some mainnet;
     io_listAccounts := Some accounts |}.

Definition injected_network_down : InjectedIO :=
  {| io_close := Some tt;
     io_Web3Provider := Some injected_client;
     io_injectedNetwork := None;
     io_listAccounts := Some [] |}.

(** An instance of the ethers parts: every account has a signer, and the
    interface of each contract type knows a single function. *)
Definition ethers_example : Ethers :=
  {| schema := λ t,
       match t with
       | BPool => "BPool.abi"
       | BFactory => "BFactory.abi"
       | TestToken => "TestToken.abi"
       | ExchangeProxy => "ExchangeProxy.abi"
       | Multicall => "Multicall.abi"
       | TestTokenBytes => "BTokenBytes32.abi"
       end;
     ethers_getSigner := λ lib a,
       Some {| signer_library := lib; signer_account := a |};
     ethers_encode := λ abi action params,
       if decide (action = "approve") then Some "0x095ea7b3" else None |}.

(** The full store after the backup provider came up. *)
Definition full_backup_active : Store Full.ProviderStore :=
  exec (Full.loadWeb3 web3_ok) Full.init.

(** The full store after a wallet was loaded on top of the backup provider
    and reported the account ['0xABC']. *)
Definition full_wallet_loaded : Store Full.ProviderStore :=
  exec (Full.loadProvider wallet1 (injected_ok ["0xABC"])) full_backup_active.

(** The full store after a wallet was loaded first: an account, no chain id. *)
Definition full_wallet_only : Store Full.ProviderStore :=
  exec (Full.loadProvider wallet1 (injected_ok ["0xABC"])) Full.init.

(** The full store after: the backup provider came up; a wallet load failed
    on its network query (the listeners were already registered); the wallet
    then reported the account ['0xABC']. *)
Definition full_no_library : Store Full.ProviderStore :=
  Full.run_ops ethers_example
    [ Full.OpLoadWeb3 web3_ok;
      Full.OpLoadProvider wallet1 injected_network_down;
      Full.OpHandleAccountsChanged ["0xABC"] web3_ok ]
    Full.init.

(** Three reloads: a wallet, a second wallet, the first wallet again. *)
Definition three_reloads : list (Provider * InjectedIO) :=
  [ (wallet1, injected_ok ["0xABC"]);
    (wallet2, injected_ok []);
    (wallet1, injected_ok ["0xDEF"]) ].

Definition safe_info_example : Full.SafeInfo :=
  {| Full.safeAddress := "0x5AFE";
     Full.safe_network := "rinkeby";
     Full.ethBalance := "0" |}.

(** A backup client that can be closed, and the store after it came up. *)
Definition closable_client : Library :=
  {| library_id := 12; library_close := true |}.

Definition web3_closable : Web3IO :=
  {| io_JsonRpcProvider := Some closable_client;
     io_backupNetwork := Some mainnet |}.

Definition full_closable_active : Store Full.ProviderStore :=
  exec (Full.loadWeb3 web3_closable) Full.init.

(** The wallet answers but closing the old library is rejected. *)
Definition injected_close_rejected : InjectedIO :=
  {| io_close := None;
     io_Web3Provider := Some injected_client;
     io_injectedNetwork := Some mainnet;
     io_listAccounts := Some [] |}.



(** * Properties *)

(** ** Running the monad *)

Lemma bind_ok {S A B : Type} (m : M S A) (k : A → M S B)
    (st st' : Store S) (a : A) :
  m st = (st', Ok a) → bind m k st = k a st'.
Proof. unfold bind; intros ->; reflexivity. Qed.

Lemma bind_throw {S A B : Type} (m : M S A) (k : A → M S B)
    (st st' : Store S) (x : Exn) :
  m st = (st', Throw x) → bind m k st = (st', Throw x).
Proof. unfold bind; intros ->; reflexivity. Qed.

Lemma try_catch_ok {S A : Type} (body : M S A) (handler : Exn → M S A)
    (st st' : Store S) (a : A) :
  body st = (st', Ok a) → try_catch body handler st = (st', Ok a).
Proof. unfold try_catch; intros ->; reflexivity. Qed.

Lemma try_catch_throw {S A : Type} (body : M S A) (handler : Exn → M S A)
    (st st' : Store S) (x : Exn) :
  body st = (st', Throw x) → try_catch body handler st = handler x st'.
Proof. unfold try_catch; intros ->; reflexivity. Qed.

Lemma store_eta {S : Type} (st : Store S) :
  {| this := this st;
     world := {| listeners := listeners (world st);
                 effects := effects (world st) |} |} = st.
Proof. destruct st as [t [ls es]]; reflexivity. Qed.

(** A collaborator call that only logs. *)
Lemma emit_run {S : Type} (e : Effect) (st : Store S) :
  emit e st
  = ({| this := this st;
        world := {| listeners := listeners (world st);
                    effects := effects (world st) ++ [e] |} |}, Ok tt).
Proof. reflexivity. Qed.

Lemma when_emit_run {S : Type} (b : bool) (e : Effect) (st : Store S) :
  when b (emit e) st
  = ({| this := this st;
        world := {| listeners := listeners (world st);
                    effects := effects (world st) ++ (if b then [e] else []) |} |},
     Ok tt).
Proof.
  destruct b; [reflexivity|].
  unfold when, ret. rewrite app_nil_r, store_eta. reflexivity.
Qed.

Lemma close_old_library_run {S : Type} (library : JsVal Library)
    (io : InjectedIO) (st : Store S) :
  close_old_library library io st
  = ({| this := this st;
        world := {| listeners := listeners (world st);
                    effects := effects (world st) ++ close_effects library |} |},
     if close_answered library io then Ok tt else Throw ExnExternal).
Proof.
  destruct library as [| |[lid []]]; simpl;
    unfold when, ret; rewrite ?app_nil_r, ?store_eta; try reflexivity.
  destruct (io_close io) as [[]|]; reflexivity.
Qed.

(** ** The blocks of [loadProvider] *)

Lemma full_remove_old_listeners_run (previous : ActiveProvider)
    (st : Store Full.ProviderStore) :
  Full.remove_old_listeners previous st
  = ({| this := this st;
        world :=
          {| listeners :=
               detach_listeners Full.store_listeners previous
                 (listeners (world st));
             effects :=
               effects (world st) ++
               detach_effects Full.store_listeners previous |} |},
     Ok tt).
Proof.
  destruct previous as [| |[oid [] omm]]; simpl;
    unfold when, ret; rewrite ?app_nil_r, ?store_eta; try reflexivity.
  unfold provider_removeListener, emit, modify_world, bind; simpl.
  rewrite <- !app_assoc. reflexivity.
Qed.

Lemma full_subscribe_listeners_run (p : Provider)
    (st : Store Full.ProviderStore) :
  Full.subscribe_listeners p st
  = ({| this := this st;
        world :=
          {| listeners :=
               attach_listeners Full.store_listeners p (listeners (world st));
             effects :=
               effects (world st) ++ attach_effects Full.store_listeners p |} |},
     Ok tt).
Proof.
  unfold Full.subscribe_listeners, attach_listeners, attach_effects.
  destruct (provider_on p); simpl;
    unfold when, ret; rewrite ?app_nil_r, ?store_eta; try reflexivity.
  unfold provider_on_call, emit, modify_world, bind; simpl.
  rewrite <- !app_assoc. reflexivity.
Qed.

Lemma compact_remove_old_listeners_run (previous : ActiveProvider)
    (st : Store Compact.ProviderStore) :
  Compact.remove_old_listeners previous st
  = ({| this := this st;
        world :=
          {| listeners :=
               detach_listeners Compact.store_listeners previous
                 (listeners (world st));
             effects :=
               effects (world st) ++
               detach_effects Compact.store_listeners previous |} |},
     Ok tt).
Proof.
  destruct previous as [| |[oid [] omm]]; simpl;
    unfold when, ret; rewrite ?app_nil_r, ?store_eta; try reflexivity.
  unfold provider_removeListener, emit, modify_world, bind; simpl.
  rewrite <- !app_assoc. reflexivity.
Qed.

Lemma compact_subscribe_listeners_run (p : Provider)
    (st : Store Compact.ProviderStore) :
  Compact.subscribe_listeners p st
  = ({| this := this st;
        world :=
          {| listeners :=
               attach_listeners Compact.store_listeners p
                 (listeners (world st));
             effects :=
               effects (world st) ++
               attach_effects Compact.store_listeners p |} |},
     Ok tt).
Proof.
  unfold Compact.subscribe_listeners, attach_listeners, attach_effects.
  destruct (provider_on p); simpl;
    unfold when, ret; rewrite ?app_nil_r, ?store_eta; try reflexivity.
  unfold provider_on_call, emit, modify_world, bind; simpl.
  rewrite <- !app_assoc. reflexivity.
Qed.

(** ** Running [loadProvider] *)

(** The [try] block of the full [loadProvider] when every collaborator
    answers. *)
Lemma full_loadProvider_try_ok (st : Store Full.ProviderStore) (p : Provider)
    (io : InjectedIO) (web3 : Library) (network : Network)
    (accounts : list string) :
  close_answered (Full.library (Full.status st)) io = true →
  io_Web3Provider io = Some web3 →
  io_injectedNetwork io = Some network →
  io_listAccounts io = Some accounts →
  Full.loadProvider_try p io st
  = ({| this :=
          {| Full.chainData := Full.chainData (this st);
             Full.providerStatus :=
               Full.set_activeProvider (APHandle p)
                 (Full.set_injectedWeb3 (JsValue web3)
                    (Full.set_account (first_account accounts)
                       (Full.set_injectedChainId (JsValue (chainId network))
                          (Full.set_injectedLoaded true (Full.status st)))));
             Full.safeStatus := Full.safeStatus (this st) |};
        world :=
          {| listeners :=
               attach_listeners Full.store_listeners p
                 (detach_listeners Full.store_listeners
                    (Full.activeProvider (Full.status st))
                    (listeners (world st)));
             effects :=
               effects (world st) ++
               detach_effects Full.store_listeners
                 (Full.activeProvider (Full.status st)) ++
               close_effects (Full.library (Full.status st)) ++
               [EffNewWeb3Provider p] ++
               autorefresh_effects p ++
               attach_effects Full.store_listeners p ++
               [EffGetNetwork web3; EffListAccounts web3] |} |},
     Ok tt).
Proof.
  intros Hclose Hweb3 Hnet Haccts.
  unfold Full.loadProvider_try, Full.status in *.
  erewrite bind_ok by reflexivity.
  erewrite bind_ok by apply full_remove_old_listeners_run.
  erewrite bind_ok by reflexivity.
  erewrite bind_ok
    by (rewrite close_old_library_run; simpl; rewrite Hclose; reflexivity).
  erewrite bind_ok by apply emit_run.
  erewrite bind_ok by (rewrite Hweb3; reflexivity).
  erewrite bind_ok by apply when_emit_run.
  erewrite bind_ok by apply full_subscribe_listeners_run.
  erewrite bind_ok by apply emit_run.
  erewrite bind_ok by (rewrite Hnet; reflexivity).
  erewrite bind_ok by apply emit_run.
  erewrite bind_ok by (rewrite Haccts; reflexivity).
  unfold bind, Full.assign, modify_this; simpl.
  unfold autorefresh_effects, first_account.
  rewrite <- !app_assoc. reflexivity.
Qed.

(** The [try] block of the full [loadProvider] when some collaborator does
    not answer: it throws before any assignment. *)
Lemma full_loadProvider_try_throws (st : Store Full.ProviderStore)
    (p : Provider) (io : InjectedIO) :
  full_try_completes st io = false →
  ∃ w, Full.loadProvider_try p io st
       = ({| this := this st; world := w |}, Throw ExnExternal).
Proof.
  unfold full_try_completes, Full.loadProvider_try, Full.status.
  intros Hfail.
  erewrite bind_ok by reflexivity.
  erewrite bind_ok by apply full_remove_old_listeners_run.
  erewrite bind_ok by reflexivity.
  destruct (close_answered (Full.library (Full.providerStatus (this st))) io)
    eqn:Hclose.
  2:{ erewrite bind_throw
        by (rewrite close_old_library_run; simpl; rewrite Hclose; reflexivity).
      eexists; reflexivity. }
  erewrite bind_ok
    by (rewrite close_old_library_run; simpl; rewrite Hclose; reflexivity).
  erewrite bind_ok by apply emit_run.
  destruct (io_Web3Provider io) as [web3|].
  2:{ erewrite bind_throw by reflexivity. eexists; reflexivity. }
  erewrite bind_ok by reflexivity.
  erewrite bind_ok by apply when_emit_run.
  erewrite bind_ok by apply full_subscribe_listeners_run.
  erewrite bind_ok by apply emit_run.
  destruct (io_injectedNetwork io) as [network|].
  2:{ erewrite bind_throw by reflexivity. eexists; reflexivity. }
  erewrite bind_ok by reflexivity.
  erewrite bind_ok by apply emit_run.
  destruct (io_listAccounts io) as [accounts|]; [discriminate Hfail|].
  erewrite bind_throw by reflexivity. eexists; reflexivity.
Qed.

Lemma full_try_completes_answers (st : Store Full.ProviderStore)
    (io : InjectedIO) :
  full_try_completes st io = true →
  close_answered (Full.library (Full.status st)) io = true ∧
  ∃ web3 network accounts,
    io_Web3Provider io = Some web3 ∧
    io_injectedNetwork io = Some network ∧
    io_listAccounts io = Some accounts.
Proof.
  unfold full_try_completes.
  destruct (close_answered _ io), (io_Web3Provider io) as [web3|],
    (io_injectedNetwork io) as [network|], (io_listAccounts io) as [accounts|];
    try discriminate.
  intros _. split; [reflexivity|]. exists web3, network, accounts. done.
Qed.

Lemma full_loadProvider_failed (st : Store Full.ProviderStore) (p : Provider)
    (io : InjectedIO) :
  full_try_completes st io = false →
  ∃ w, Full.loadProvider p io st
       = ({| this :=
               {| Full.chainData := Full.chainData (this st);
                  Full.providerStatus :=
                    Full.set_activeProvider APNull
                      (Full.set_active false
                         (Full.set_library JsNull
                            (Full.set_account JsNull
                               (Full.set_injectedChainId JsNull
                                  (Full.set_injectedLoaded false
                                     (Full.status st))))));
                  Full.safeStatus := Full.safeStatus (this st) |};
             world := w |},
          Ok tt).
Proof.
  intros Hfail.
  destruct (full_loadProvider_try_throws st p io Hfail) as [w Hthrow].
  exists w. unfold Full.loadProvider.
  erewrite try_catch_throw by exact Hthrow.
  reflexivity.
Qed.

(** The full [loadProvider] leaves either the committed or the cleared
    members, and never touches the Safe status. *)
Lemma full_loadProvider_status (st : Store Full.ProviderStore) (p : Provider)
    (io : InjectedIO) :
  let st' := exec (Full.loadProvider p io) st in
  Full.safeStatus (this st') = Full.safeStatus (this st) ∧
  ((∃ web3 network accounts,
      Full.status st'
      = Full.set_activeProvider (APHandle p)
          (Full.set_injectedWeb3 (JsValue web3)
             (Full.set_account (first_account accounts)
                (Full.set_injectedChainId (JsValue (chainId network))
                   (Full.set_injectedLoaded true (Full.status st)))))) ∨
   Full.status st'
   = Full.set_activeProvider APNull
       (Full.set_active false
          (Full.set_library JsNull
             (Full.set_account JsNull
                (Full.set_injectedChainId JsNull
                   (Full.set_injectedLoaded false (Full.status st))))))).
Proof.
  cbv zeta. destruct (full_try_completes st io) eqn:Hc.
  - destruct (full_try_completes_answers st io Hc)
      as (Hclose & web3 & network & accounts & Hweb3 & Hnet & Haccts).
    pose proof (full_loadProvider_try_ok st p io web3 network accounts
                  Hclose Hweb3 Hnet Haccts) as Htry.
    unfold exec, Full.loadProvider. erewrite try_catch_ok by exact Htry.
    split; [reflexivity|]. left. exists web3, network, accounts. reflexivity.
  - destruct (full_loadProvider_failed st p io Hc) as [w Hrun].
    unfold exec. rewrite Hrun. split; [reflexivity|]. right. reflexivity.
Qed.

(** The compact [loadProvider] when [close] is not asked for or answers. *)
Lemma compact_loadProvider_ok (st : Store Compact.ProviderStore)
    (p : Provider) (io : InjectedIO) :
  compact_try_completes st io = true →
  Compact.loadProvider p io st
  = ({| this :=
          {| Compact.chainData := Compact.chainData (this st);
             Compact.providerStatus :=
               Compact.set_activeProvider (APHandle p) (Compact.status st) |};
        world :=
          {| listeners :=
               attach_listeners Compact.store_listeners p
                 (detach_listeners Compact.store_listeners
                    (Compact.activeProvider (Compact.status st))
                    (listeners (world st)));
             effects :=
               effects (world st) ++
               detach_effects Compact.store_listeners
                 (Compact.activeProvider (Compact.status st)) ++
               close_effects (Compact.library (Compact.status st)) ++
               autorefresh_effects p ++
               attach_effects Compact.store_listeners p |} |},
     Ok tt).
Proof.
  unfold compact_try_completes, Compact.status. intros Hclose.
  unfold Compact.loadProvider. erewrite try_catch_ok; [reflexivity|].
  unfold Compact.loadProvider_try.
  erewrite bind_ok by reflexivity.
  erewrite bind_ok by apply compact_remove_old_listeners_run.
  erewrite bind_ok by reflexivity.
  erewrite bind_ok
    by (rewrite close_old_library_run; simpl; rewrite Hclose; reflexivity).
  erewrite bind_ok by apply when_emit_run.
  erewrite bind_ok by apply compact_subscribe_listeners_run.
  unfold Compact.assign, modify_this; simpl.
  unfold autorefresh_effects.
  rewrite <- !app_assoc. reflexivity.
Qed.

(** The compact [loadProvider] when [library.close()] rejects. *)
Lemma compact_loadProvider_failed (st : Store Compact.ProviderStore)
    (p : Provider) (io : InjectedIO) :
  compact_try_completes st io = false →
  ∃ w, Compact.loadProvider p io st
       = ({| this :=
               {| Compact.chainData := Compact.chainData (this st);
                  Compact.providerStatus :=
                    Compact.set_activeProvider APNull
                      (Compact.set_active false
                         (Compact.set_library JsNull (Compact.status st))) |};
             world := w |},
          Ok tt).
Proof.
  unfold compact_try_completes, Compact.status. intros Hclose.
  assert (∃ w, Compact.loadProvider_try p io st
               = ({| this := this st; world := w |}, Throw ExnExternal))
    as [w Hthrow].
  { unfold Compact.loadProvider_try.
    erewrite bind_ok by reflexivity.
    erewrite bind_ok by apply compact_remove_old_listeners_run.
    erewrite bind_ok by reflexivity.
    erewrite bind_throw
      by (rewrite close_old_library_run; simpl; rewrite Hclose; reflexivity).
    eexists; reflexivity. }
  exists w. unfold Compact.loadProvider.
  erewrite try_catch_throw by exact Hthrow.
  reflexivity.
Qed.

Lemma compact_loadProvider_status (st : Store Compact.ProviderStore)
    (p : Provider) (io : InjectedIO) :
  let st' := exec (Compact.loadProvider p io) st in
  Compact.status st'
  = Compact.set_activeProvider (APHandle p) (Compact.status st) ∨
  Compact.status st'
  = Compact.set_activeProvider APNull
      (Compact.set_active false
         (Compact.set_library JsNull (Compact.status st))).
Proof.
  cbv zeta. destruct (compact_try_completes st io) eqn:Hc.
  - unfold exec. rewrite (compact_loadProvider_ok st p io Hc). by left.
  - destruct (compact_loadProvider_failed st p io Hc) as [w Hrun].
    unfold exec. rewrite Hrun. by right.
Qed.

(** ** The event handlers re-run [loadWeb3] when the store is active *)

Lemma full_handleClose_run (io : Web3IO) (st : Store Full.ProviderStore) :
  Full.handleClose io st
  = if Full.active (Full.status st) then Full.loadWeb3 io st else (st, Ok tt).
Proof.
  unfold Full.handleClose, Full.read_status, Full.status, bind at 1 2;
    cbn [get_this ret].
  by destruct (Full.active _).
Qed.

Lemma full_handleNetworkChanged_this (networkId : Z) (io : Web3IO)
    (st : Store Full.ProviderStore) :
  this (exec (Full.handleNetworkChanged networkId io) st)
  = if Full.active (Full.status st)
    then this (exec (Full.loadWeb3 io) st)
    else this st.
Proof.
  unfold exec, Full.handleNetworkChanged, Full.read_status, Full.status,
    bind at 1 2; cbn [get_this ret].
  destruct (Full.active _); [|reflexivity].
  unfold when, bind. by destruct (Full.loadWeb3 io st) as [st' [[]|x]].
Qed.

Lemma full_handleNetworkChanged_status (networkId : Z) (io : Web3IO)
    (st : Store Full.ProviderStore) :
  Full.status (exec (Full.handleNetworkChanged networkId io) st)
  = if Full.active (Full.status st)
    then Full.status (exec (Full.loadWeb3 io) st)
    else Full.status st.
Proof.
  unfold Full.status. rewrite full_handleNetworkChanged_this.
  by destruct (Full.active _).
Qed.

Lemma compact_handleClose_run (io : Web3IO)
    (st : Store Compact.ProviderStore) :
  Compact.handleClose io st
  = if Compact.active (Compact.status st)
    then Compact.loadWeb3 io st
    else (st, Ok tt).
Proof.
  unfold Compact.handleClose, Compact.read_status, Compact.status,
    bind at 1 2; cbn [get_this ret].
  by destruct (Compact.active _).
Qed.

Lemma compact_handleNetworkChanged_this (networkId : Z) (io : Web3IO)
    (st : Store Compact.ProviderStore) :
  this (exec (Compact.handleNetworkChanged networkId io) st)
  = if Compact.active (Compact.status st)
    then this (exec (Compact.loadWeb3 io) st)
    else this st.
Proof.
  unfold exec, Compact.handleNetworkChanged, Compact.read_status,
    Compact.status, bind at 1 2; cbn [get_this ret].
  destruct (Compact.active _); [|reflexivity].
  unfold when, bind. by destruct (Compact.loadWeb3 io st) as [st' [[]|x]].
Qed.

Lemma compact_handleNetworkChanged_status (networkId : Z) (io : Web3IO)
    (st : Store Compact.ProviderStore) :
  Compact.status (exec (Compact.handleNetworkChanged networkId io) st)
  = if Compact.active (Compact.status st)
    then Compact.status (exec (Compact.loadWeb3 io) st)
    else Compact.status st.
Proof.
  unfold Compact.status. rewrite compact_handleNetworkChanged_this.
  by destruct (Compact.active _).
Qed.

(** ** Methods that only read the store *)

Lemma frames_ret {S A : Type} (a : A) : frames_this (@ret S A a).
Proof. intros st; reflexivity. Qed.

Lemma frames_throw {S A : Type} (x : Exn) : frames_this (@throw S A x).
Proof. intros st; reflexivity. Qed.

Lemma frames_get_this {S : Type} : frames_this (@get_this S).
Proof. intros st; reflexivity. Qed.

Lemma frames_emit {S : Type} (e : Effect) : frames_this (@emit S e).
Proof. intros st; reflexivity. Qed.

Lemma frames_await {S A : Type} (answer : option A) :
  frames_this (@await S A answer).
Proof. intros st; destruct answer; reflexivity. Qed.

Lemma frames_bind {S A B : Type} (m : M S A) (k : A → M S B) :
  frames_this m → (∀ a, frames_this (k a)) → frames_this (bind m k).
Proof.
  intros Hm Hk st. specialize (Hm st). unfold exec, bind in *.
  destruct (m st) as [st' [a|x]]; cbn [fst] in *; [|exact Hm].
  rewrite <- Hm. apply Hk.
Qed.

Create HintDb frames.
#[local] Hint Resolve frames_ret frames_throw frames_get_this frames_emit
  frames_await : frames.

Ltac frames :=
  repeat first
    [ progress eauto with frames
    | apply frames_bind; [|intros ?]
    | match goal with
      | |- frames_this (if ?b then _ else _) => destruct b
      | |- frames_this (match ?v with _ => _ end) => destruct v
      end ].

Lemma frames_getProviderOrSigner {S : Type} (E : Ethers)
    (library : JsVal Library) (account : JsVal string) :
  frames_this (@getProviderOrSigner S E library account).
Proof. unfold getProviderOrSigner, library_getSigner. frames. Qed.

Lemma frames_new_Contract {S : Type} (E : Ethers) (address : string)
    (type : ContractTypes) (sp : SignerOrProvider) :
  frames_this (@new_Contract S E address type sp).
Proof. unfold new_Contract. frames. Qed.

Lemma frames_fetchUserBlockchainData {S : Type} (account : string)
    (io_fetch : option unit) :
  frames_this (@fetchUserBlockchainData S account io_fetch).
Proof. unfold fetchUserBlockchainData. frames. Qed.

#[local] Hint Resolve frames_getProviderOrSigner frames_new_Contract
  frames_fetchUserBlockchainData : frames.

Lemma full_frames_getContract (E : Ethers) (type : ContractTypes)
    (address : string) (signerAccount : JsVal string) :
  frames_this (Full.getContract E type address signerAccount).
Proof. unfold Full.getContract, Full.read_status. frames. Qed.

Lemma compact_frames_getContract (E : Ethers) (type : ContractTypes)
    (address : string) (signerAccount : JsVal string) :
  frames_this (Compact.getContract E type address signerAccount).
Proof. unfold Compact.getContract, Compact.read_status. frames. Qed.

#[local] Hint Resolve full_frames_getContract compact_frames_getContract
  : frames.

Lemma full_frames_encodeTransaction (E : Ethers) (contractType : ContractTypes)
    (contractAddress action : string) (params : list JsParam)
    (overrides : JsVal Overrides) :
  frames_this (Full.encodeTransaction E contractType contractAddress action
                 params overrides).
Proof.
  unfold Full.encodeTransaction, Full.read_status, contract_encode. frames.
Qed.

#[local] Hint Resolve full_frames_encodeTransaction : frames.

Lemma full_frames_sendTransactions (E : Ethers)
    (transactions : list FunctionCall) :
  frames_this (Full.sendTransactions E transactions).
Proof.
  induction transactions as [|c rest IH]; cbn [Full.sendTransactions]; frames.
Qed.

Lemma full_frames_discard {A : Type} (m : M Full.ProviderStore A) :
  frames_this m → frames_this (Full.discard m).
Proof. intros Hm. unfold Full.discard. frames. Qed.

Lemma compact_frames_discard {A : Type} (m : M Compact.ProviderStore A) :
  frames_this m → frames_this (Compact.discard m).
Proof. intros Hm. unfold Compact.discard. frames. Qed.

(** ** What a method can do to [providerStatus] *)

(** Every method of the full store leaves [providerStatus] in one of five
    ways: as it was; as one [loadWeb3()] leaves it; with a new account; with
    the members [loadProvider] commits; with the members [loadProvider]
    clears. *)
Lemma full_op_status (E : Ethers) (o : Full.Op)
    (st : Store Full.ProviderStore) :
  let ps' := Full.status (exec (Full.run_op E o) st) in
  ps' = Full.status st ∨
  (∃ io, ps' = Full.status (exec (Full.loadWeb3 io) st)) ∨
  (∃ account0, ps' = Full.set_account (JsValue account0) (Full.status st)) ∨
  (∃ p web3 network accounts,
     ps' = Full.set_activeProvider (APHandle p)
             (Full.set_injectedWeb3 (JsValue web3)
                (Full.set_account (first_account accounts)
                   (Full.set_injectedChainId (JsValue (chainId network))
                      (Full.set_injectedLoaded true (Full.status st)))))) ∨
  ps' = Full.set_activeProvider APNull
          (Full.set_active false
             (Full.set_library JsNull
                (Full.set_account JsNull
                   (Full.set_injectedChainId JsNull
                      (Full.set_injectedLoaded false (Full.status st)))))).
Proof.
  cbv zeta.
  assert (Hframe : ∀ m : M Full.ProviderStore unit,
            frames_this m → Full.status (exec m st) = Full.status st).
  { intros m Hm. unfold Full.status. by rewrite Hm. }
  destruct o; cbn [Full.run_op].
  - by left.
  - by left.
  - by left.
  - left. apply Hframe. frames.
  - left. apply Hframe, full_frames_discard. frames.
  - left. apply Hframe, full_frames_discard. frames.
  - left. apply Hframe, full_frames_discard. frames.
  - left. apply Hframe, full_frames_discard, full_frames_sendTransactions.
  - left. apply Hframe, full_frames_discard, full_frames_sendTransactions.
  - rewrite full_handleNetworkChanged_status.
    destruct (Full.active (Full.status st)); [|by left].
    right; left. exists io; reflexivity.
  - unfold exec. rewrite full_handleClose_run.
    destruct (Full.active (Full.status st)); [|by left].
    right; left. exists io; reflexivity.
  - destruct accounts as [|account0 accounts].
    + unfold exec. cbn [Full.handleAccountsChanged].
      rewrite full_handleClose_run.
      destruct (Full.active (Full.status st)); [|by left].
      right; left. exists io; reflexivity.
    + right; right; left. exists account0; reflexivity.
  - destruct (full_loadProvider_status st provider io)
      as [_ [(web3 & network & accounts & ->) | ->]].
    + right; right; right; left. exists provider, web3, network, accounts; reflexivity.
    + by repeat right.
  - right; left. exists io; reflexivity.
Qed.

(** The compact store has three ways besides leaving it as it was. *)
Lemma compact_op_status (E : Ethers) (o : Compact.Op)
    (st : Store Compact.ProviderStore) :
  let ps' := Compact.status (exec (Compact.run_op E o) st) in
  ps' = Compact.status st ∨
  (∃ io, ps' = Compact.status (exec (Compact.loadWeb3 io) st)) ∨
  (∃ p, ps' = Compact.set_activeProvider (APHandle p) (Compact.status st)) ∨
  ps' = Compact.set_activeProvider APNull
          (Compact.set_active false
             (Compact.set_library JsNull (Compact.status st))).
Proof.
  cbv zeta.
  assert (Hframe : ∀ m : M Compact.ProviderStore unit,
            frames_this m → Compact.status (exec m st) = Compact.status st).
  { intros m Hm. unfold Compact.status. by rewrite Hm. }
  destruct o; cbn [Compact.run_op].
  - by left.
  - by left.
  - left. apply Hframe. frames.
  - left. apply Hframe, compact_frames_discard. frames.
  - left. apply Hframe, compact_frames_discard. frames.
  - rewrite compact_handleNetworkChanged_status.
    destruct (Compact.active (Compact.status st)); [|by left].
    right; left. exists io; reflexivity.
  - unfold exec. rewrite compact_handleClose_run.
    destruct (Compact.active (Compact.status st)); [|by left].
    right; left. exists io; reflexivity.
  - destruct (compact_loadProvider_status st provider io) as [-> | ->].
    + right; right; left. exists provider; reflexivity.
    + by repeat right.
  - right; left. exists io; reflexivity.
Qed.

(** ** Failure of the backup load *)

(** C1: whatever the store held before, when the network query inside
    [loadWeb3()] fails the call still returns normally and leaves
    [active = false], [library = null], [activeProvider = null],
    [backUpLoaded = false], [activeChainId = null] and [error] set to the
    [NoWeb3] error; in both variants. *)
Theorem loadWeb3_failure_clears (io : Web3IO)
    (fst : Store Full.ProviderStore) (cst : Store Compact.ProviderStore) :
  io_backupNetwork io = None →
  (result (Full.loadWeb3 io) fst = Ok tt ∧
   let ps := Full.status (exec (Full.loadWeb3 io) fst) in
   Full.active ps = false ∧ Full.library ps = JsNull ∧
   Full.activeProvider ps = APNull ∧ Full.backUpLoaded ps = false ∧
   Full.activeChainId ps = JsNull ∧ Full.error ps = JsValue NoWeb3) ∧
  (result (Compact.loadWeb3 io) cst = Ok tt ∧
   let ps := Compact.status (exec (Compact.loadWeb3 io) cst) in
   Compact.active ps = false ∧ Compact.library ps = JsNull ∧
   Compact.activeProvider ps = APNull ∧ Compact.backUpLoaded ps = false ∧
   Compact.activeChainId ps = JsNull ∧ Compact.error ps = JsValue NoWeb3).
Proof.
  destruct io as [[web3|] network]; simpl; intros ->;
    repeat split; reflexivity.
Qed.

Lemma loadWeb3_failure_clears_witness :
  Full.active (Full.status full_wallet_loaded) = true ∧
  Full.active
    (Full.status (exec (Full.loadWeb3 web3_unreachable) full_wallet_loaded))
    = false ∧
  Full.error
    (Full.status (exec (Full.loadWeb3 web3_unreachable) full_wallet_loaded))
    = JsValue NoWeb3 ∧
  Compact.library
    (Compact.status
       (exec (Compact.loadWeb3 web3_unreachable)
          (exec (Compact.loadWeb3 web3_ok) Compact.init)))
    = JsNull.
Proof.
  pose proof (loadWeb3_failure_clears web3_unreachable full_wallet_loaded
                (exec (Compact.loadWeb3 web3_ok) Compact.init) eq_refl)
    as [[_ Hfull] [_ Hcompact]].
  split; [reflexivity|]. split; [apply Hfull|]. split; [apply Hfull|].
  apply Hcompact.
Defined.

(** ** Encoding a transaction *)

(** C2: [encodeTransaction] throws [BlockchainActionNoAccount] when the
    stored account is unset, and [BlockchainActionNoChainId] when the account
    is set and the stored [activeChainId] is unset.  Set means truthy, the
    test the method applies ([null], [undefined], the empty string and the
    number 0 are unset).  The store and the world come back as they were, so
    the effect log gained no signer, contract or encoding call, and the
    exception is the result of the call itself. *)
Theorem encodeTransaction_preconditions (E : Ethers)
    (st : Store Full.ProviderStore) (contractType : ContractTypes)
    (contractAddress action : string) (params : list JsParam)
    (overrides : JsVal Overrides) :
  (truthy truthy_string (Full.account (Full.status st)) = false →
   Full.encodeTransaction E contractType contractAddress action params
     overrides st
   = (st, Throw (ExnError BlockchainActionNoAccount))) ∧
  (truthy truthy_string (Full.account (Full.status st)) = true →
   truthy truthy_number (Full.activeChainId (Full.status st)) = false →
   Full.encodeTransaction E contractType contractAddress action params
     overrides st
   = (st, Throw (ExnError BlockchainActionNoChainId))).
Proof.
  destruct st as [[cd ps ss] w].
  unfold Full.encodeTransaction, Full.read_status, Full.status, bind,
    get_this, ret, throw; simpl.
  split.
  - intros ->. reflexivity.
  - intros -> ->. reflexivity.
Qed.

Lemma encodeTransaction_preconditions_witness :
  Full.encodeTransaction ethers_example BPool "0xPool" "approve" [] JsUndefined
    Full.init
  = (Full.init, Throw (ExnError BlockchainActionNoAccount)) ∧
  Full.encodeTransaction ethers_example BPool "0xPool" "approve" [] JsUndefined
    full_wallet_only
  = (full_wallet_only, Throw (ExnError BlockchainActionNoChainId)).
Proof.
  split.
  - apply (encodeTransaction_preconditions ethers_example Full.init).
    reflexivity.
  - apply (encodeTransaction_preconditions ethers_example full_wallet_only);
      reflexivity.
Defined.

(** [encodeTransaction] with an account and a chain id but with
    [library = null]: binding the signer dereferences [null], so the call
    throws a [TypeError] and returns no descriptor.  The store used here is
    reached from the initial one by three methods. *)
Lemma encodeTransaction_no_library_throws :
  truthy truthy_string (Full.account (Full.status full_no_library)) = true ∧
  truthy truthy_number (Full.activeChainId (Full.status full_no_library))
    = true ∧
  result (Full.encodeTransaction ethers_example BPool "0xPool" "approve" []
            JsUndefined) full_no_library
  = Throw ExnTypeError.
Proof. repeat split; reflexivity. Qed.

(** C3 (amended): when account and [activeChainId] are set, [library] holds
    an RPC client that yields a signer for the account, and the ABI encoding
    of [action] with [params] under the schema of [contractType] succeeds with
    [d], then [encodeTransaction] returns the descriptor with [data = d],
    [to] the supplied contract address and [value = 0], whatever the
    overrides; the store object is unchanged and the log gains the two signer
    calls, the contract binding and the encoding. *)
Theorem encodeTransaction_descriptor (E : Ethers)
    (st : Store Full.ProviderStore) (contractType : ContractTypes)
    (contractAddress action : string) (params : list JsParam)
    (overrides : JsVal Overrides)
    (lib : Library) (signer : JsonRpcSigner) (d : string) :
  truthy truthy_string (Full.account (Full.status st)) = true →
  truthy truthy_number (Full.activeChainId (Full.status st)) = true →
  Full.library (Full.status st) = JsValue lib →
  ethers_getSigner E lib (Full.account (Full.status st)) = Some signer →
  ethers_encode E (schema E contractType) action params = Some d →
  Full.encodeTransaction E contractType contractAddress action params
    overrides st
  = ({| this := this st;
        world :=
          {| listeners := listeners (world st);
             effects :=
               effects (world st) ++
               [ EffGetSigner lib (Full.account (Full.status st));
                 EffGetSigner lib (Full.account (Full.status st));
                 EffNewContract contractAddress contractType;
                 EffEncode contractType action params ] |} |},
     Ok {| data := d; to := contractAddress; value := 0 |}).
Proof.
  destruct st as [[cd ps ss] [ls effs]].
  unfold Full.status; simpl.
  intros Hacc Hchain Hlib Hsigner Hencode.
  unfold Full.encodeTransaction, Full.getContract, getProviderOrSigner,
    library_getSigner, new_Contract, contract_encode, Full.read_status,
    emit, modify_world, await, bind, get_this, ret, throw; simpl.
  rewrite Hacc, Hchain; simpl.
  rewrite Hlib; simpl.
  rewrite Hsigner; simpl.
  rewrite Hencode; simpl.
  rewrite <- !app_assoc; reflexivity.
Qed.

Lemma encodeTransaction_descriptor_witness :
  result (Full.encodeTransaction ethers_example TestToken "0xToken" "approve"
            [PString "0xSpender"; PNumber 5] JsUndefined) full_wallet_loaded
  = Ok {| data := "0x095ea7b3"; to := "0xToken"; value := 0 |}.
Proof.
  unfold result.
  rewrite (encodeTransaction_descriptor ethers_example full_wallet_loaded
             TestToken "0xToken" "approve" [PString "0xSpender"; PNumber 5]
             JsUndefined backup_client
             {| signer_library := backup_client;
                signer_account := JsValue "0xABC" |}
             "0x095ea7b3"
             eq_refl eq_refl eq_refl eq_refl eq_refl).
  reflexivity.
Defined.

(** ** Loading a wallet handle *)

(** The compact [loadProvider] succeeds on a wallet handle without asking it
    for the network id or the accounts; it only records the handle, and it
    does the same when those queries would fail. *)
Lemma compact_loadProvider_asks_nothing :
  let st' := exec (Compact.loadProvider wallet1 (injected_ok ["0xABC"]))
               Compact.init in
  result (Compact.loadProvider wallet1 (injected_ok ["0xABC"])) Compact.init
    = Ok tt ∧
  Compact.status st'
    = Compact.set_activeProvider (APHandle wallet1) Compact.initial_status ∧
  effects (world st')
    = [ EffAutoRefreshOff wallet1;
        EffOn wallet1 chainChanged this_handleNetworkChanged;
        EffOn wallet1 close this_handleClose;
        EffOn wallet1 networkChanged this_handleNetworkChanged ] ∧
  filter is_query_effect (effects (world st')) = [] ∧
  exec (Compact.loadProvider wallet1 injected_network_down) Compact.init = st'.
Proof. repeat split; reflexivity. Qed.

Lemma compact_loadProvider_no_query (st : Store Compact.ProviderStore)
    (p : Provider) (io : InjectedIO) :
  filter is_query_effect (effects (world (exec (Compact.loadProvider p io) st)))
  = filter is_query_effect (effects (world st)).
Proof.
  destruct st as [[cd [cid lib act bul ap err]] [ls effs]].
  destruct p as [pid pon pmm], io as [[[]|] w3 net accts].
  all: destruct ap as [| |[oid [] omm]], lib as [| |[lid []]], pon, pmm.
  all: unfold exec; simpl; rewrite ?filter_app; simpl;
    rewrite ?app_nil_r; reflexivity.
Qed.

(** C4 (amended): in the full variant [loadProvider(handle)] always returns
    normally.  When every collaborator answers, it has built an RPC client on
    the supplied handle, asked that client for the network and then for the
    accounts, and only then committed [injectedLoaded = true],
    [injectedChainId] from the network answer, [account] from the account
    list ([null] when the list is empty), [injectedWeb3] and
    [activeProvider = handle], touching no other member.  When some
    collaborator does not answer, none of these values is committed: the
    members hold the cleared values of the [catch] block.  In the compact
    variant [loadProvider] makes no query, and a successful call commits
    [activeProvider = handle] and nothing else. *)
Theorem loadProvider_commits_after_queries (st : Store Full.ProviderStore)
    (cst : Store Compact.ProviderStore) (p : Provider) (io : InjectedIO) :
  (let st' := exec (Full.loadProvider p io) st in
   let old := Full.status st in
   let new := Full.status st' in
   result (Full.loadProvider p io) st = Ok tt ∧
   (full_try_completes st io = true →
    ∃ web3 network accounts,
      io_Web3Provider io = Some web3 ∧
      io_injectedNetwork io = Some network ∧
      io_listAccounts io = Some accounts ∧
      new = Full.set_activeProvider (APHandle p)
              (Full.set_injectedWeb3 (JsValue web3)
                 (Full.set_account (first_account accounts)
                    (Full.set_injectedChainId (JsValue (chainId network))
                       (Full.set_injectedLoaded true old)))) ∧
      effects (world st')
      = effects (world st) ++
        detach_effects Full.store_listeners (Full.activeProvider old) ++
        close_effects (Full.library old) ++
        [EffNewWeb3Provider p] ++
        autorefresh_effects p ++
        attach_effects Full.store_listeners p ++
        [EffGetNetwork web3; EffListAccounts web3]) ∧
   (full_try_completes st io = false →
    new = Full.set_activeProvider APNull
            (Full.set_active false
               (Full.set_library JsNull
                  (Full.set_account JsNull
                     (Full.set_injectedChainId JsNull
                        (Full.set_injectedLoaded false old))))) ∧
    Full.injectedLoaded new = false ∧
    Full.injectedChainId new = JsNull ∧
    Full.account new = JsNull ∧
    Full.activeProvider new = APNull)) ∧
  (let cst' := exec (Compact.loadProvider p io) cst in
   filter is_query_effect (effects (world cst'))
   = filter is_query_effect (effects (world cst)) ∧
   (compact_try_completes cst io = true →
    Compact.status cst'
    = Compact.set_activeProvider (APHandle p) (Compact.status cst))).
Proof.
  cbv zeta. split.
  - destruct (full_try_completes st io) eqn:Hc.
    + destruct (full_try_completes_answers st io Hc)
        as (Hclose & web3 & network & accounts & Hweb3 & Hnet & Haccts).
      pose proof (full_loadProvider_try_ok st p io web3 network accounts
                    Hclose Hweb3 Hnet Haccts) as Htry.
      unfold result, exec, Full.loadProvider.
      erewrite try_catch_ok by exact Htry.
      split; [reflexivity|]. split; [|discriminate].
      intros _. exists web3, network, accounts. done.
    + destruct (full_loadProvider_failed st p io Hc) as [w Hrun].
      unfold result, exec. rewrite Hrun.
      split; [reflexivity|]. split; [discriminate|].
      intros _. done.
  - split; [apply compact_loadProvider_no_query|].
    intros Hc. unfold exec. by rewrite (compact_loadProvider_ok cst p io Hc).
Qed.

Lemma loadProvider_commits_after_queries_witness :
  Full.account
    (Full.status (exec (Full.loadProvider wallet1 (injected_ok ["0xABC"]))
                    full_backup_active))
  = JsValue "0xABC" ∧
  Full.activeProvider
    (Full.status (exec (Full.loadProvider wallet2 injected_network_down)
                    full_wallet_loaded))
  = APNull ∧
  Compact.activeProvider
    (Compact.status (exec (Compact.loadProvider wallet2 injected_network_down)
                       Compact.init))
  = APHandle wallet2.
Proof.
  split; [|split].
  - destruct (loadProvider_commits_after_queries full_backup_active
                Compact.init wallet1 (injected_ok ["0xABC"]))
      as [(_ & Hok & _) _].
    destruct (Hok eq_refl) as (web3 & network & accounts & _ & _ & Ha & -> & _).
    injection Ha as <-. reflexivity.
  - destruct (loadProvider_commits_after_queries full_wallet_loaded
                Compact.init wallet2 injected_network_down)
      as [(_ & _ & Hfail) _].
    apply (Hfail eq_refl).
  - destruct (loadProvider_commits_after_queries full_wallet_loaded
                Compact.init wallet2 injected_network_down)
      as [_ [_ Hcompact]].
    rewrite (Hcompact eq_refl). reflexivity.
Defined.

(** ** Listeners across reloads *)

Lemma remove_first_head (s : Subscription) (l : list Subscription) :
  remove_first s (s :: l) = l.
Proof. simpl. rewrite decide_True by reflexivity. reflexivity. Qed.

Lemma remove_first_skip (s x : Subscription) (l : list Subscription) :
  x ≠ s → remove_first s (x :: l) = x :: remove_first s l.
Proof. intros Hne. simpl. rewrite decide_False by exact Hne. reflexivity. Qed.

Ltac remove_listeners :=
  repeat (rewrite remove_first_head || rewrite remove_first_skip by congruence).

(** Detaching from the active provider empties a registry that holds exactly
    its listeners. *)
Lemma full_detach_current (previous : ActiveProvider) :
  detach_listeners Full.store_listeners previous
    (current_listeners Full.store_listeners previous) = [].
Proof.
  destruct previous as [| |old]; try reflexivity.
  unfold detach_listeners, current_listeners.
  destruct (provider_on old); [|reflexivity].
  cbn [Full.store_listeners subscriptions_of fmap list_fmap reverse rev_append
       foldl fst snd].
  remove_listeners. reflexivity.
Qed.

Lemma compact_detach_current (previous : ActiveProvider) :
  detach_listeners Compact.store_listeners previous
    (current_listeners Compact.store_listeners previous) = [].
Proof.
  destruct previous as [| |old]; try reflexivity.
  unfold detach_listeners, current_listeners.
  destruct (provider_on old); [|reflexivity].
  cbn [Compact.store_listeners subscriptions_of fmap list_fmap reverse
       rev_append foldl fst snd].
  remove_listeners. reflexivity.
Qed.

Lemma attach_to_empty (ls : list (EventName * Callback)) (p : Provider) :
  attach_listeners ls p [] = current_listeners ls (APHandle p).
Proof.
  unfold attach_listeners, current_listeners.
  destruct (provider_on p); [apply app_nil_r | reflexivity].
Qed.

Lemma filter_detach_effects (ls : list (EventName * Callback))
    (previous : ActiveProvider) :
  filter is_listener_effect (detach_effects ls previous)
  = detach_effects ls previous.
Proof.
  destruct previous as [| |old]; try reflexivity.
  unfold detach_effects. destruct (provider_on old); [|reflexivity].
  induction ls as [|ec ls IH]; [reflexivity|].
  rewrite fmap_cons, filter_cons_True by exact I. by rewrite IH.
Qed.

Lemma filter_attach_effects (ls : list (EventName * Callback)) (p : Provider) :
  filter is_listener_effect (attach_effects ls p) = attach_effects ls p.
Proof.
  unfold attach_effects. destruct (provider_on p); [|reflexivity].
  induction ls as [|ec ls IH]; [reflexivity|].
  rewrite fmap_cons, filter_cons_True by exact I. by rewrite IH.
Qed.

Lemma filter_close_effects (library : JsVal Library) :
  filter is_listener_effect (close_effects library) = [].
Proof. by destruct library as [| |[lid []]]. Qed.

Lemma filter_autorefresh_effects (p : Provider) :
  filter is_listener_effect (autorefresh_effects p) = [].
Proof. unfold autorefresh_effects. by destruct (isMetaMask p). Qed.

Lemma remove_dups_constant (p : Provider) (l : list Provider) :
  l ≠ [] → (∀ x, x ∈ l → x = p) → remove_dups l = [p].
Proof.
  induction l as [|x l IH]; [done|]. intros _ Hall.
  assert (x = p) as -> by (apply Hall; left).
  destruct l as [|y l]; [reflexivity|].
  assert (y = p) as -> by (apply Hall; right; left).
  cbn [remove_dups].
  destruct (decide_rel elem_of p (p :: l)) as [_|Hn];
    [|exfalso; apply Hn; left].
  apply IH; [done|]. intros x Hx. apply Hall. by right.
Qed.

(** All registrations of [current_listeners] live on the active handle,
    which is then the one handle with listeners, and none is repeated. *)
Lemma current_listeners_one_handle (ls : list (EventName * Callback))
    (p : Provider) :
  ls ≠ [] → NoDup ls → provider_on p = true →
  attached_handles (current_listeners ls (APHandle p)) = [p] ∧
  NoDup (current_listeners ls (APHandle p)).
Proof.
  intros Hne Hnd Hon. unfold current_listeners, attached_handles.
  rewrite Hon. unfold subscriptions_of. split.
  - apply remove_dups_constant.
    + destruct ls; [done|]. rewrite fmap_cons, reverse_cons, fmap_app.
      intros Heq. by apply app_eq_nil in Heq as [_ ?].
    + intros x Hx.
      apply list_elem_of_fmap in Hx as (s & -> & Hs).
      apply elem_of_reverse, list_elem_of_fmap in Hs as (ec & -> & _).
      reflexivity.
  - rewrite reverse_Permutation. apply NoDup_fmap_2_strong; [|done].
    intros [e1 c1] [e2 c2] _ _ [= -> ->]. reflexivity.
Qed.

Lemma full_store_listeners_distinct :
  Full.store_listeners ≠ [] ∧ NoDup Full.store_listeners.
Proof. split; [done|]. by apply (bool_decide_unpack _). Qed.

Lemma compact_store_listeners_distinct :
  Compact.store_listeners ≠ [] ∧ NoDup Compact.store_listeners.
Proof. split; [done|]. by apply (bool_decide_unpack _). Qed.

Lemma last_handle_cons (previous : ActiveProvider) (p : Provider)
    (rest : list Provider) :
  last_handle previous (p :: rest) = last_handle (APHandle p) rest.
Proof. unfold last_handle. rewrite last_cons. by destruct (last rest). Qed.

(** One successful full [loadProvider]: the handle becomes the active
    provider, the registry follows it, and the call logs the removals from
    the previous provider before the registrations on the new handle. *)
Lemma full_loadProvider_listeners (st : Store Full.ProviderStore)
    (p : Provider) (io : InjectedIO) :
  full_listeners_in_step st →
  full_try_completes st io = true →
  let st' := exec (Full.loadProvider p io) st in
  Full.activeProvider (Full.status st') = APHandle p ∧
  full_listeners_in_step st' ∧
  filter is_listener_effect (effects (world st'))
  = filter is_listener_effect (effects (world st)) ++
    detach_effects Full.store_listeners (Full.activeProvider (Full.status st)) ++
    attach_effects Full.store_listeners p.
Proof.
  intros Hinv Hc.
  destruct (full_try_completes_answers st io Hc)
    as (Hclose & web3 & network & accounts & Hweb3 & Hnet & Haccts).
  pose proof (full_loadProvider_try_ok st p io web3 network accounts
                Hclose Hweb3 Hnet Haccts) as Htry.
  unfold exec, Full.loadProvider. erewrite try_catch_ok by exact Htry.
  unfold full_listeners_in_step in *. cbn [fst this world listeners effects].
  split; [reflexivity|]. split.
  - rewrite Hinv, full_detach_current. apply attach_to_empty.
  - rewrite !filter_app, filter_detach_effects, filter_attach_effects,
      filter_close_effects, filter_autorefresh_effects.
    cbn. by rewrite app_nil_r.
Qed.

Lemma compact_loadProvider_listeners (st : Store Compact.ProviderStore)
    (p : Provider) (io : InjectedIO) :
  compact_listeners_in_step st →
  compact_try_completes st io = true →
  let st' := exec (Compact.loadProvider p io) st in
  Compact.activeProvider (Compact.status st') = APHandle p ∧
  compact_listeners_in_step st' ∧
  filter is_listener_effect (effects (world st'))
  = filter is_listener_effect (effects (world st)) ++
    detach_effects Compact.store_listeners
      (Compact.activeProvider (Compact.status st)) ++
    attach_effects Compact.store_listeners p.
Proof.
  intros Hinv Hc.
  unfold exec. rewrite (compact_loadProvider_ok st p io Hc).
  unfold compact_listeners_in_step in *. cbn [fst this world listeners effects].
  split; [reflexivity|]. split.
  - rewrite Hinv, compact_detach_current. apply attach_to_empty.
  - rewrite !filter_app, filter_detach_effects, filter_attach_effects,
      filter_close_effects, filter_autorefresh_effects.
    reflexivity.
Qed.

(** A run of successful [loadProvider] calls, from any store whose registry
    is in step. *)
Lemma full_run_loads_listeners (calls : list (Provider * InjectedIO)) :
  ∀ st : Store Full.ProviderStore,
    full_listeners_in_step st →
    full_loads_succeed st calls →
    let st' := Full.run_loads calls st in
    Full.activeProvider (Full.status st')
    = last_handle (Full.activeProvider (Full.status st)) calls.*1 ∧
    full_listeners_in_step st' ∧
    filter is_listener_effect (effects (world st'))
    = filter is_listener_effect (effects (world st)) ++
      listener_log Full.store_listeners (Full.activeProvider (Full.status st))
        calls.*1.
Proof.
  induction calls as [|[p io] calls IH]; intros st Hinv Hok.
  - cbn. rewrite app_nil_r. done.
  - destruct Hok as [Hc Hrest]. cbn [fst snd] in Hc, Hrest.
    destruct (full_loadProvider_listeners st p io Hinv Hc)
      as (Hap & Hinv' & Hlog).
    destruct (IH _ Hinv' Hrest) as (Hap2 & Hinv2 & Hlog2).
    cbn zeta in *. rewrite fmap_cons, last_handle_cons. cbn [fst].
    change (Full.run_loads ((p, io) :: calls) st)
      with (Full.run_loads calls (exec (Full.loadProvider p io) st)).
    rewrite Hap in Hap2, Hlog2.
    split; [exact Hap2|]. split; [exact Hinv2|].
    rewrite Hlog2, Hlog. cbn [listener_log]. by rewrite <- !app_assoc.
Qed.

Lemma compact_run_loads_listeners (calls : list (Provider * InjectedIO)) :
  ∀ st : Store Compact.ProviderStore,
    compact_listeners_in_step st →
    compact_loads_succeed st calls →
    let st' := Compact.run_loads calls st in
    Compact.activeProvider (Compact.status st')
    = last_handle (Compact.activeProvider (Compact.status st)) calls.*1 ∧
    compact_listeners_in_step st' ∧
    filter is_listener_effect (effects (world st'))
    = filter is_listener_effect (effects (world st)) ++
      listener_log Compact.store_listeners
        (Compact.activeProvider (Compact.status st)) calls.*1.
Proof.
  induction calls as [|[p io] calls IH]; intros st Hinv Hok.
  - cbn. rewrite app_nil_r. done.
  - destruct Hok as [Hc Hrest]. cbn [fst snd] in Hc, Hrest.
    destruct (compact_loadProvider_listeners st p io Hinv Hc)
      as (Hap & Hinv' & Hlog).
    destruct (IH _ Hinv' Hrest) as (Hap2 & Hinv2 & Hlog2).
    cbn zeta in *. rewrite fmap_cons, last_handle_cons. cbn [fst].
    change (Compact.run_loads ((p, io) :: calls) st)
      with (Compact.run_loads calls (exec (Compact.loadProvider p io) st)).
    rewrite Hap in Hap2, Hlog2.
    split; [exact Hap2|]. split; [exact Hinv2|].
    rewrite Hlog2, Hlog. cbn [listener_log]. by rewrite <- !app_assoc.
Qed.

Lemma full_loads_succeed_prefix (pre suf : list (Provider * InjectedIO)) :
  ∀ st, full_loads_succeed st (pre ++ suf) → full_loads_succeed st pre.
Proof.
  induction pre as [|c pre IH]; intros st; [done|].
  cbn. intros [Hc Hrest]. split; [exact Hc|]. by apply IH.
Qed.

Lemma compact_loads_succeed_prefix (pre suf : list (Provider * InjectedIO)) :
  ∀ st, compact_loads_succeed st (pre ++ suf) → compact_loads_succeed st pre.
Proof.
  induction pre as [|c pre IH]; intros st; [done|].
  cbn. intros [Hc Hrest]. split; [exact Hc|]. by apply IH.
Qed.

(** C5: take any run of successful [loadProvider] calls from the initial
    store and any point of it (a prefix [pre] of the calls).  At that point
    the active provider is the handle of the latest call, the registry holds
    exactly the store's listeners on that handle ([chainChanged],
    [accountsChanged] in the full variant, [close], [networkChanged]), each
    once, so that handle is the only one with listeners; and the listener
    calls made so far are, call after call, the removals from the previously
    active handle followed by the registrations on the new one.  Both
    variants.  Before the first call no listener is registered; a handle has
    listeners when it is an event emitter ([provider.on]). *)
Theorem listeners_on_one_handle (calls pre suf : list (Provider * InjectedIO)) :
  calls = pre ++ suf →
  (full_loads_succeed Full.init calls →
   let st := Full.run_loads pre Full.init in
   let current := last_handle APNull pre.*1 in
   Full.activeProvider (Full.status st) = current ∧
   listeners (world st) = current_listeners Full.store_listeners current ∧
   filter is_listener_effect (effects (world st))
   = listener_log Full.store_listeners APNull pre.*1 ∧
   (∀ p, current = APHandle p → provider_on p = true →
         attached_handles (listeners (world st)) = [p] ∧
         NoDup (listeners (world st)) ∧
         length (listeners (world st)) = 4%nat)) ∧
  (compact_loads_succeed Compact.init calls →
   let st := Compact.run_loads pre Compact.init in
   let current := last_handle APNull pre.*1 in
   Compact.activeProvider (Compact.status st) = current ∧
   listeners (world st) = current_listeners Compact.store_listeners current ∧
   filter is_listener_effect (effects (world st))
   = listener_log Compact.store_listeners APNull pre.*1 ∧
   (∀ p, current = APHandle p → provider_on p = true →
         attached_handles (listeners (world st)) = [p] ∧
         NoDup (listeners (world st)) ∧
         length (listeners (world st)) = 3%nat)).
Proof.
  intros ->. split; intros Hok.
  - apply full_loads_succeed_prefix in Hok.
    destruct (full_run_loads_listeners pre Full.init eq_refl Hok)
      as (Hap & Hinv & Hlog).
    cbn zeta in *. unfold full_listeners_in_step in Hinv.
    change (Full.activeProvider (Full.status Full.init)) with APNull in *.
    rewrite Hap in Hinv.
    split; [exact Hap|]. split; [exact Hinv|]. split; [exact Hlog|].
    intros p Hp Hon. rewrite Hinv, Hp.
    destruct full_store_listeners_distinct as [Hne Hnd].
    destruct (current_listeners_one_handle _ p Hne Hnd Hon) as [Hone Hdup].
    split; [exact Hone|]. split; [exact Hdup|].
    cbn. rewrite Hon. reflexivity.
  - apply compact_loads_succeed_prefix in Hok.
    destruct (compact_run_loads_listeners pre Compact.init eq_refl Hok)
      as (Hap & Hinv & Hlog).
    cbn zeta in *. unfold compact_listeners_in_step in Hinv.
    change (Compact.activeProvider (Compact.status Compact.init)) with APNull in *.
    rewrite Hap in Hinv.
    split; [exact Hap|]. split; [exact Hinv|]. split; [exact Hlog|].
    intros p Hp Hon. rewrite Hinv, Hp.
    destruct compact_store_listeners_distinct as [Hne Hnd].
    destruct (current_listeners_one_handle _ p Hne Hnd Hon) as [Hone Hdup].
    split; [exact Hone|]. split; [exact Hdup|].
    cbn. rewrite Hon. reflexivity.
Qed.

Lemma listeners_on_one_handle_witness :
  attached_handles
    (listeners (world (Full.run_loads (take 2 three_reloads) Full.init)))
  = [wallet2] ∧
  attached_handles
    (listeners (world (Compact.run_loads three_reloads Compact.init)))
  = [wallet1].
Proof.
  split.
  - destruct (listeners_on_one_handle three_reloads (take 2 three_reloads)
                (drop 2 three_reloads) eq_refl) as [Hfull _].
    destruct (Hfull ltac:(repeat split)) as (_ & _ & _ & Hone).
    apply (Hone wallet2 eq_refl eq_refl).
  - destruct (listeners_on_one_handle three_reloads three_reloads []
                eq_refl) as [_ Hcompact].
    destruct (Hcompact ltac:(repeat split)) as (_ & _ & _ & Hone).
    apply (Hone wallet1 eq_refl eq_refl).
Defined.

(** ** The connection invariant *)

Lemma full_loadWeb3_consistent (st : Store Full.ProviderStore) (io : Web3IO) :
  full_consistent (Full.status (exec (Full.loadWeb3 io) st)).
Proof.
  destruct io as [[web3|] [network|]]; intros Hactive; try discriminate.
  split; [exact I | discriminate].
Qed.

Lemma compact_loadWeb3_consistent (st : Store Compact.ProviderStore)
    (io : Web3IO) :
  compact_consistent (Compact.status (exec (Compact.loadWeb3 io) st)).
Proof.
  destruct io as [[web3|] [network|]]; intros Hactive; try discriminate.
  split; [exact I | discriminate].
Qed.

(** C6: [active == true] implies [library != null] and
    [activeProvider != null] in the initial store, and every method of the
    store keeps it so, whatever its collaborators answer (so on the success
    and on the failure path of every load); in both variants. *)
Theorem consistent_preserved (E : Ethers) :
  (full_consistent (Full.status Full.init) ∧
   ∀ (o : Full.Op) (st : Store Full.ProviderStore),
     full_consistent (Full.status st) →
     full_consistent (Full.status (exec (Full.run_op E o) st))) ∧
  (compact_consistent (Compact.status Compact.init) ∧
   ∀ (o : Compact.Op) (st : Store Compact.ProviderStore),
     compact_consistent (Compact.status st) →
     compact_consistent (Compact.status (exec (Compact.run_op E o) st))).
Proof.
  split; (split; [intros Hactive; discriminate|]); intros o st Hinv.
  - destruct (full_op_status E o st)
      as [-> | [[io ->] | [[account0 ->] |
          [(p & web3 & network & accounts & ->) | ->]]]].
    + exact Hinv.
    + apply full_loadWeb3_consistent.
    + exact Hinv.
    + intros Hactive. destruct (Hinv Hactive) as [Hlib _].
      split; [exact Hlib | discriminate].
    + intros Hactive; discriminate.
  - destruct (compact_op_status E o st) as [-> | [[io ->] | [[p ->] | ->]]].
    + exact Hinv.
    + apply compact_loadWeb3_consistent.
    + intros Hactive. destruct (Hinv Hactive) as [Hlib _].
      split; [exact Hlib | discriminate].
    + intros Hactive; discriminate.
Qed.

Lemma consistent_preserved_witness :
  full_consistent (Full.status full_wallet_loaded) ∧
  compact_consistent
    (Compact.status
       (exec (Compact.loadProvider wallet1 (injected_ok []))
          (exec (Compact.loadWeb3 web3_ok) Compact.init))).
Proof.
  destruct (consistent_preserved ethers_example) as [[_ Hfull] [_ Hcompact]].
  split.
  - apply (Hfull (Full.OpLoadProvider wallet1 (injected_ok ["0xABC"]))
             full_backup_active).
    intros _. split; [exact I | discriminate].
  - apply (Hcompact (Compact.OpLoadProvider wallet1 (injected_ok []))
             (exec (Compact.loadWeb3 web3_ok) Compact.init)).
    intros _. split; [exact I | discriminate].
Defined.

(** ** Wallet events *)

(** C7: from every store, and whatever the backup endpoint answers,
    [handleAccountsChanged([])] ends in the same store, the same world and
    the same result as [handleClose()]: both do nothing when the store is
    not active and both are one [loadWeb3()] when it is.  (Methods are run to
    completion: the state compared is the one reached when the load that
    the handler starts has settled.) *)
Theorem handleAccountsChanged_empty_is_handleClose
    (st : Store Full.ProviderStore) (io : Web3IO) :
  Full.handleAccountsChanged [] io st = Full.handleClose io st ∧
  Full.handleAccountsChanged [] io st
  = (if Full.active (Full.status st) then Full.loadWeb3 io st else (st, Ok tt)).
Proof.
  split; [reflexivity|].
  cbn [Full.handleAccountsChanged]. apply full_handleClose_run.
Qed.

(** C8: with [active = true], [handleAccountsChanged] on a non-empty list
    sets [account] to the first element, calls the data refresh once with
    [force = true], calls no other collaborator (so no network query), and
    leaves every other member, the chain ids among them, as it was. *)
Theorem handleAccountsChanged_adopts_first (st : Store Full.ProviderStore)
    (account0 : string) (rest : list string) (io : Web3IO) :
  Full.active (Full.status st) = true →
  let st' := exec (Full.handleAccountsChanged (account0 :: rest) io) st in
  Full.handleAccountsChanged (account0 :: rest) io st
  = ({| this :=
          {| Full.chainData := Full.chainData (this st);
             Full.providerStatus :=
               Full.set_account (JsValue account0) (Full.status st);
             Full.safeStatus := Full.safeStatus (this st) |};
        world :=
          {| listeners := listeners (world st);
             effects := effects (world st) ++ [EffBlockchainFetch true] |} |},
     Ok tt) ∧
  Full.account (Full.status st') = JsValue account0 ∧
  Full.activeChainId (Full.status st') = Full.activeChainId (Full.status st) ∧
  Full.injectedChainId (Full.status st')
  = Full.injectedChainId (Full.status st) ∧
  Full.active (Full.status st') = true.
Proof.
  intros Hactive. cbv zeta. repeat split; try reflexivity. exact Hactive.
Qed.

Lemma handleAccountsChanged_adopts_first_witness :
  Full.account
    (Full.status
       (exec (Full.handleAccountsChanged ["0xABC"; "0xDEF"] web3_unreachable)
          full_backup_active))
  = JsValue "0xABC" ∧
  effects
    (world
       (exec (Full.handleAccountsChanged ["0xABC"; "0xDEF"] web3_unreachable)
          full_backup_active))
  = effects (world full_backup_active) ++ [EffBlockchainFetch true].
Proof.
  destruct (handleAccountsChanged_adopts_first full_backup_active "0xABC"
              ["0xDEF"] web3_unreachable eq_refl) as (Hrun & Hacc & _).
  split; [exact Hacc|].
  unfold exec. rewrite Hrun. reflexivity.
Defined.

(** ** The error member *)

Lemma full_loadWeb3_error (st : Store Full.ProviderStore) (io : Web3IO) :
  Full.error (Full.status (exec (Full.loadWeb3 io) st))
  = (if answered (io_JsonRpcProvider io) && answered (io_backupNetwork io)
     then Full.error (Full.status st)
     else JsValue NoWeb3).
Proof. destruct io as [[web3|] [network|]]; reflexivity. Qed.

Lemma compact_loadWeb3_error (st : Store Compact.ProviderStore) (io : Web3IO) :
  Compact.error (Compact.status (exec (Compact.loadWeb3 io) st))
  = (if answered (io_JsonRpcProvider io) && answered (io_backupNetwork io)
     then Compact.error (Compact.status st)
     else JsValue NoWeb3).
Proof. destruct io as [[web3|] [network|]]; reflexivity. Qed.

(** Every method of the full store leaves [error] as it was or sets it to
    the [NoWeb3] error. *)
Lemma full_op_error (E : Ethers) (o : Full.Op) (st : Store Full.ProviderStore) :
  let e' := Full.error (Full.status (exec (Full.run_op E o) st)) in
  e' = Full.error (Full.status st) ∨ e' = JsValue NoWeb3.
Proof.
  cbv zeta.
  destruct (full_op_status E o st)
    as [-> | [[io ->] | [[account0 ->] |
        [(p & web3 & network & accounts & ->) | ->]]]];
    try (by left).
  rewrite full_loadWeb3_error. destruct (_ && _); [by left | by right].
Qed.

Lemma compact_op_error (E : Ethers) (o : Compact.Op)
    (st : Store Compact.ProviderStore) :
  let e' := Compact.error (Compact.status (exec (Compact.run_op E o) st)) in
  e' = Compact.error (Compact.status st) ∨ e' = JsValue NoWeb3.
Proof.
  cbv zeta.
  destruct (compact_op_status E o st) as [-> | [[io ->] | [[p ->] | ->]]];
    try (by left).
  rewrite compact_loadWeb3_error. destruct (_ && _); [by left | by right].
Qed.

Lemma full_run_ops_error (E : Ethers) (os : list Full.Op) :
  ∀ st : Store Full.ProviderStore,
    Full.error (Full.status st) = JsValue NoWeb3 →
    Full.error (Full.status (Full.run_ops E os st)) = JsValue NoWeb3.
Proof.
  induction os as [|o os IH]; intros st Herr; [exact Herr|].
  cbn [Full.run_ops]. apply IH.
  destruct (full_op_error E o st) as [-> | ->]; [exact Herr | reflexivity].
Qed.

Lemma compact_run_ops_error (E : Ethers) (os : list Compact.Op) :
  ∀ st : Store Compact.ProviderStore,
    Compact.error (Compact.status st) = JsValue NoWeb3 →
    Compact.error (Compact.status (Compact.run_ops E os st)) = JsValue NoWeb3.
Proof.
  induction os as [|o os IH]; intros st Herr; [exact Herr|].
  cbn [Compact.run_ops]. apply IH.
  destruct (compact_op_error E o st) as [-> | ->]; [exact Herr | reflexivity].
Qed.

(** C9: no method of the store resets [error]: each leaves it as it was or
    sets it to the [NoWeb3] error, so once set it stays set through any run
    of methods.  A successful [loadWeb3] sets [active = true] and replaces
    [library] and [activeProvider] but leaves [error] as it was; hence after
    a failed load followed by a successful one [active = true] and
    [error = NoWeb3] hold together.  Both variants. *)
Theorem error_never_reset (E : Ethers) (web3 : Library) (network : Network) :
  let ok := {| io_JsonRpcProvider := Some web3;
               io_backupNetwork := Some network |} in
  ((∀ (o : Full.Op) (st : Store Full.ProviderStore),
      Full.error (Full.status (exec (Full.run_op E o) st))
        = Full.error (Full.status st) ∨
      Full.error (Full.status (exec (Full.run_op E o) st)) = JsValue NoWeb3) ∧
   (∀ (os : list Full.Op) (st : Store Full.ProviderStore),
      Full.error (Full.status st) = JsValue NoWeb3 →
      Full.error (Full.status (Full.run_ops E os st)) = JsValue NoWeb3) ∧
   (∀ st : Store Full.ProviderStore,
      let st' := exec (Full.loadWeb3 ok) st in
      Full.active (Full.status st') = true ∧
      Full.library (Full.status st') = JsValue web3 ∧
      Full.activeProvider (Full.status st') = APBackup ∧
      Full.error (Full.status st') = Full.error (Full.status st)) ∧
   (∀ (st : Store Full.ProviderStore) (failed : Web3IO),
      io_backupNetwork failed = None →
      let st' := exec (Full.loadWeb3 ok) (exec (Full.loadWeb3 failed) st) in
      Full.active (Full.status st') = true ∧
      Full.error (Full.status st') = JsValue NoWeb3)) ∧
  ((∀ (o : Compact.Op) (st : Store Compact.ProviderStore),
      Compact.error (Compact.status (exec (Compact.run_op E o) st))
        = Compact.error (Compact.status st) ∨
      Compact.error (Compact.status (exec (Compact.run_op E o) st))
        = JsValue NoWeb3) ∧
   (∀ (os : list Compact.Op) (st : Store Compact.ProviderStore),
      Compact.error (Compact.status st) = JsValue NoWeb3 →
      Compact.error (Compact.status (Compact.run_ops E os st))
        = JsValue NoWeb3) ∧
   (∀ st : Store Compact.ProviderStore,
      let st' := exec (Compact.loadWeb3 ok) st in
      Compact.active (Compact.status st') = true ∧
      Compact.library (Compact.status st') = JsValue web3 ∧
      Compact.activeProvider (Compact.status st') = APBackup ∧
      Compact.error (Compact.status st') = Compact.error (Compact.status st)) ∧
   (∀ (st : Store Compact.ProviderStore) (failed : Web3IO),
      io_backupNetwork failed = None →
      let st' :=
        exec (Compact.loadWeb3 ok) (exec (Compact.loadWeb3 failed) st) in
      Compact.active (Compact.status st') = true ∧
      Compact.error (Compact.status st') = JsValue NoWeb3)).
Proof.
  cbv zeta. split.
  - split; [apply full_op_error|]. split; [apply full_run_ops_error|]. split.
    + intros st. repeat split; reflexivity.
    + intros st failed Hfail. split; [reflexivity|].
      rewrite full_loadWeb3_error. cbn [answered andb].
      rewrite full_loadWeb3_error, Hfail. by rewrite andb_false_r.
  - split; [apply compact_op_error|].
    split; [apply compact_run_ops_error|]. split.
    + intros st. repeat split; reflexivity.
    + intros st failed Hfail. split; [reflexivity|].
      rewrite compact_loadWeb3_error. cbn [answered andb].
      rewrite compact_loadWeb3_error, Hfail. by rewrite andb_false_r.
Qed.

Lemma error_never_reset_witness :
  let st := exec (Full.loadWeb3 web3_ok)
              (exec (Full.loadWeb3 web3_unreachable) full_wallet_loaded) in
  Full.active (Full.status st) = true ∧
  Full.error (Full.status st) = JsValue NoWeb3.
Proof.
  destruct (error_never_reset ethers_example backup_client mainnet)
    as [(_ & _ & _ & Hfull) _].
  apply (Hfull full_wallet_loaded web3_unreachable eq_refl).
Defined.

(** ** The account after a backup load *)

(** C10 (full variant): a successful [loadWeb3] overwrites [account] with
    the Safe address when [setSafeInfo] has stored a descriptor and with
    [undefined] when it has not, whatever [account] held.  The same holds
    when the load is re-run by a network-change or close event on an active
    store, and an account adopted through [handleAccountsChanged] or
    [loadProvider] does not survive the next successful [loadWeb3]. *)
Theorem loadWeb3_overwrites_account (st : Store Full.ProviderStore)
    (web3 : Library) (network : Network) :
  let ok := {| io_JsonRpcProvider := Some web3;
               io_backupNetwork := Some network |} in
  let safe := Full.safeInfo_and_safeAddress (Full.safeStatus (this st)) in
  Full.account (Full.status (exec (Full.loadWeb3 ok) st)) = safe ∧
  (∀ info, Full.safeInfo (Full.safeStatus (this st)) = JsValue info →
           safe = JsValue (Full.safeAddress info)) ∧
  (Full.safeInfo (Full.safeStatus (this st)) = JsUndefined →
   safe = JsUndefined) ∧
  (∀ info,
     Full.account
       (Full.status (exec (Full.loadWeb3 ok) (exec (Full.setSafeInfo info) st)))
     = JsValue (Full.safeAddress info)) ∧
  (Full.active (Full.status st) = true →
   ∀ networkId,
     Full.account
       (Full.status (exec (Full.handleNetworkChanged networkId ok) st)) = safe ∧
     Full.account (Full.status (exec (Full.handleClose ok) st)) = safe) ∧
  (∀ accounts io,
     Full.account
       (Full.status
          (exec (Full.loadWeb3 ok)
             (exec (Full.handleAccountsChanged accounts io) st)))
     = safe) ∧
  (∀ p io,
     Full.account
       (Full.status (exec (Full.loadWeb3 ok) (exec (Full.loadProvider p io) st)))
     = safe).
Proof.
  cbv zeta. unfold Full.safeInfo_and_safeAddress.
  split; [reflexivity|]. split; [by intros info ->|].
  split; [by intros ->|]. split; [reflexivity|]. split; [|split].
  - intros Hactive networkId. split.
    + rewrite full_handleNetworkChanged_status, Hactive. reflexivity.
    + unfold exec. rewrite full_handleClose_run, Hactive. reflexivity.
  - intros accounts io. destruct accounts as [|account0 accounts];
      [|reflexivity].
    unfold exec at 2. cbn [Full.handleAccountsChanged].
    rewrite full_handleClose_run.
    destruct (Full.active (Full.status st)); [|reflexivity].
    by destruct io as [[w|] [n|]].
  - intros p io.
    destruct (full_loadProvider_status st p io) as [Hsafe _].
    change (Full.account (Full.status (exec (Full.loadWeb3
              {| io_JsonRpcProvider := Some web3;
                 io_backupNetwork := Some network |})
              (exec (Full.loadProvider p io) st))))
      with (Full.safeInfo_and_safeAddress
              (Full.safeStatus (this (exec (Full.loadProvider p io) st)))).
    unfold Full.safeInfo_and_safeAddress. by rewrite Hsafe.
Qed.

Lemma loadWeb3_overwrites_account_witness :
  Full.account (Full.status full_wallet_loaded) = JsValue "0xABC" ∧
  Full.account
    (Full.status (exec (Full.handleNetworkChanged 4 web3_ok) full_wallet_loaded))
  = JsUndefined ∧
  Full.account
    (Full.status
       (exec (Full.handleClose web3_ok)
          (exec (Full.setSafeInfo safe_info_example) full_wallet_loaded)))
  = JsValue "0x5AFE".
Proof.
  split; [reflexivity|]. split.
  - destruct (loadWeb3_overwrites_account full_wallet_loaded backup_client
                mainnet) as (_ & _ & _ & _ & Hevent & _).
    apply (Hevent eq_refl 4).
  - destruct (loadWeb3_overwrites_account
                (exec (Full.setSafeInfo safe_info_example) full_wallet_loaded)
                backup_client mainnet) as (_ & _ & _ & _ & Hevent & _).
    apply (Hevent eq_refl 0).
Defined.

(** * Further properties *)

(** ** Further lemmas on the loads and the event handlers *)

Lemma full_loadWeb3_returns (io : Web3IO) (st : Store Full.ProviderStore) :
  result (Full.loadWeb3 io) st = Ok tt.
Proof. destruct io as [[web3|] [network|]]; reflexivity. Qed.

Lemma compact_loadWeb3_returns (io : Web3IO)
    (st : Store Compact.ProviderStore) :
  result (Compact.loadWeb3 io) st = Ok tt.
Proof. destruct io as [[web3|] [network|]]; reflexivity. Qed.

Lemma full_handleNetworkChanged_run (networkId : Z) (io : Web3IO)
    (st : Store Full.ProviderStore) :
  Full.handleNetworkChanged networkId io st
  = if Full.active (Full.status st)
    then (exec (blockchainFetch true) (exec (Full.loadWeb3 io) st), Ok tt)
    else (st, Ok tt).
Proof.
  unfold Full.handleNetworkChanged, Full.read_status, Full.status,
    bind at 1 2; cbn [get_this ret].
  destruct (Full.active _); [|reflexivity].
  pose proof (full_loadWeb3_returns io st) as Hret.
  unfold when, bind, exec, result in *.
  destruct (Full.loadWeb3 io st) as [st' [[]|x]]; [reflexivity|].
  discriminate Hret.
Qed.

Lemma compact_handleNetworkChanged_run (networkId : Z) (io : Web3IO)
    (st : Store Compact.ProviderStore) :
  Compact.handleNetworkChanged networkId io st
  = if Compact.active (Compact.status st)
    then (exec (blockchainFetch true) (exec (Compact.loadWeb3 io) st), Ok tt)
    else (st, Ok tt).
Proof.
  unfold Compact.handleNetworkChanged, Compact.read_status, Compact.status,
    bind at 1 2; cbn [get_this ret].
  destruct (Compact.active _); [|reflexivity].
  pose proof (compact_loadWeb3_returns io st) as Hret.
  unfold when, bind, exec, result in *.
  destruct (Compact.loadWeb3 io st) as [st' [[]|x]]; [reflexivity|].
  discriminate Hret.
Qed.

Lemma forget_loadWeb3 (io : Web3IO) (st : Store Full.ProviderStore) :
  forget (exec (Full.loadWeb3 io) st) = exec (Compact.loadWeb3 io) (forget st).
Proof. destruct io as [[web3|] [network|]]; reflexivity. Qed.

(** ** The two variants side by side *)

(** X1: on [loadWeb3], [handleClose], [handleNetworkChanged] and
    [getContract] the compact store does what the full store does, the extra
    members forgotten: the same common members afterwards, the same
    collaborator calls, the same contract or exception. *)
Theorem compact_is_full_forgotten (E : Ethers) (st : Store Full.ProviderStore)
    (io : Web3IO) (networkId : Z) (type : ContractTypes) (address : string)
    (signerAccount : JsVal string) :
  forget (exec (Full.loadWeb3 io) st) = exec (Compact.loadWeb3 io) (forget st) ∧
  forget (exec (Full.handleClose io) st)
  = exec (Compact.handleClose io) (forget st) ∧
  forget (exec (Full.handleNetworkChanged networkId io) st)
  = exec (Compact.handleNetworkChanged networkId io) (forget st) ∧
  forget (exec (Full.getContract E type address signerAccount) st)
  = exec (Compact.getContract E type address signerAccount) (forget st) ∧
  result (Full.getContract E type address signerAccount) st
  = result (Compact.getContract E type address signerAccount) (forget st).
Proof.
  split; [apply forget_loadWeb3|]. split; [|split].
  - unfold exec. rewrite full_handleClose_run, compact_handleClose_run.
    change (Compact.active (Compact.status (forget st)))
      with (Full.active (Full.status st)).
    destruct (Full.active (Full.status st));
      [apply forget_loadWeb3 | reflexivity].
  - unfold exec at 1 2.
    rewrite full_handleNetworkChanged_run, compact_handleNetworkChanged_run.
    change (Compact.active (Compact.status (forget st)))
      with (Full.active (Full.status st)).
    destruct (Full.active (Full.status st)); [|reflexivity].
    cbn [fst]. rewrite <- forget_loadWeb3. reflexivity.
  - destruct st as [[cd ps ss] w]. destruct ps.
    unfold exec, result, Full.getContract, Compact.getContract,
      Full.read_status, Compact.read_status, getProviderOrSigner,
      library_getSigner, new_Contract, bind, get_this, ret, await, throw,
      emit, modify_world, forget, Full.status; cbn.
    destruct (truthy truthy_string signerAccount); [|done].
    destruct library as [| |lib]; cbn; [done | done |].
    destruct (ethers_getSigner E lib signerAccount); done.
Qed.

(** ** Loading the backup provider again *)


(** ** A network change on an active store *)

(** X3: on an active store [handleNetworkChanged] is one [loadWeb3()]
    followed by one data refresh with [force = true], whatever the network
    id; the refresh is started also when the load failed and left the store
    inactive.  Both variants. *)
Theorem handleNetworkChanged_refreshes_after_load
    (fst : Store Full.ProviderStore) (cst : Store Compact.ProviderStore)
    (networkId : Z) (io : Web3IO) :
  (Full.active (Full.status fst) = true →
   Full.handleNetworkChanged networkId io fst
   = (exec (blockchainFetch true) (exec (Full.loadWeb3 io) fst), Ok tt) ∧
   effects (world (exec (Full.handleNetworkChanged networkId io) fst))
   = effects (world (exec (Full.loadWeb3 io) fst)) ++
     [EffBlockchainFetch true]) ∧
  (Compact.active (Compact.status cst) = true →
   Compact.handleNetworkChanged networkId io cst
   = (exec (blockchainFetch true) (exec (Compact.loadWeb3 io) cst), Ok tt) ∧
   effects (world (exec (Compact.handleNetworkChanged networkId io) cst))
   = effects (world (exec (Compact.loadWeb3 io) cst)) ++
     [EffBlockchainFetch true]).
Proof.
  split; intros Hactive.
  - pose proof (full_handleNetworkChanged_run networkId io fst) as Hrun.
    rewrite Hactive in Hrun. split; [exact Hrun|].
    unfold exec at 1. rewrite Hrun. reflexivity.
  - pose proof (compact_handleNetworkChanged_run networkId io cst) as Hrun.
    rewrite Hactive in Hrun. split; [exact Hrun|].
    unfold exec at 1. rewrite Hrun. reflexivity.
Qed.

Lemma handleNetworkChanged_refreshes_after_load_witness :
  effects
    (world (exec (Full.handleNetworkChanged 4 web3_unreachable)
              full_wallet_loaded))
  = effects (world (exec (Full.loadWeb3 web3_unreachable) full_wallet_loaded))
    ++ [EffBlockchainFetch true].
Proof.
  destruct (handleNetworkChanged_refreshes_after_load full_wallet_loaded
              Compact.init 4 web3_unreachable) as [Hfull _].
  apply (Hfull eq_refl).
Defined.
(** ** Activation *)

Lemma full_framed_status {A : Type} (m : M Full.ProviderStore A)
    (st : Store Full.ProviderStore) :
  frames_this m → Full.status (exec m st) = Full.status st.
Proof. intros Hm. unfold Full.status. by rewrite Hm. Qed.

Lemma compact_framed_status {A : Type} (m : M Compact.ProviderStore A)
    (st : Store Compact.ProviderStore) :
  frames_this m → Compact.status (exec m st) = Compact.status st.
Proof. intros Hm. unfold Compact.status. by rewrite Hm. Qed.

(** X4: from an inactive store the only method that can set [active] is
    [loadWeb3] itself, called directly, with an endpoint that answers:
    [loadProvider] never activates the store, and the event handlers do not
    run while it is inactive.  Both variants. *)
Theorem only_loadWeb3_activates (E : Ethers) :
  (∀ (o : Full.Op) (st : Store Full.ProviderStore),
     Full.active (Full.status st) = false →
     Full.active (Full.status (exec (Full.run_op E o) st)) = true →
     ∃ io web3 network,
       o = Full.OpLoadWeb3 io ∧
       io_JsonRpcProvider io = Some web3 ∧
       io_backupNetwork io = Some network) ∧
  (∀ (o : Compact.Op) (st : Store Compact.ProviderStore),
     Compact.active (Compact.status st) = false →
     Compact.active (Compact.status (exec (Compact.run_op E o) st)) = true →
     ∃ io web3 network,
       o = Compact.OpLoadWeb3 io ∧
       io_JsonRpcProvider io = Some web3 ∧
       io_backupNetwork io = Some network).
Proof.
  split; intros o st Hoff Hon.
  - destruct o; cbn [Full.run_op] in Hon.
    + unfold Full.status, exec in *; cbn in *; congruence.
    + unfold Full.status, exec in *; cbn in *; congruence.
    + unfold Full.status, exec in *; cbn in *; congruence.
    + rewrite full_framed_status in Hon; [congruence | frames].
    + rewrite full_framed_status in Hon; [congruence|].
      apply full_frames_discard. frames.
    + rewrite full_framed_status in Hon; [congruence|].
      apply full_frames_discard. frames.
    + rewrite full_framed_status in Hon; [congruence|].
      apply full_frames_discard. frames.
    + rewrite full_framed_status in Hon; [congruence|].
      apply full_frames_discard, full_frames_sendTransactions.
    + rewrite full_framed_status in Hon; [congruence|].
      apply full_frames_discard, full_frames_sendTransactions.
    + rewrite full_handleNetworkChanged_status, Hoff in Hon. congruence.
    + unfold exec in Hon. rewrite full_handleClose_run, Hoff in Hon.
      cbn [fst] in Hon. congruence.
    + destruct accounts as [|account0 accounts].
      * unfold exec in Hon. cbn [Full.handleAccountsChanged] in Hon.
        rewrite full_handleClose_run, Hoff in Hon. cbn [fst] in Hon.
        congruence.
      * unfold Full.status, exec in *; cbn in *; congruence.
    + destruct (full_loadProvider_status st provider io)
        as [_ [(web3 & network & accounts & Hs) | Hs]];
        rewrite Hs in Hon; cbn in Hon; congruence.
    + destruct io as [[web3|] [network|]]; try discriminate Hon.
      by exists {| io_JsonRpcProvider := Some web3;
                   io_backupNetwork := Some network |}, web3, network.
  - destruct o; cbn [Compact.run_op] in Hon.
    + unfold Compact.status, exec in *; cbn in *; congruence.
    + unfold Compact.status, exec in *; cbn in *; congruence.
    + rewrite compact_framed_status in Hon; [congruence | frames].
    + rewrite compact_framed_status in Hon; [congruence|].
      apply compact_frames_discard. frames.
    + rewrite compact_framed_status in Hon; [congruence|].
      apply compact_frames_discard. frames.
    + rewrite compact_handleNetworkChanged_status, Hoff in Hon. congruence.
    + unfold exec in Hon. rewrite compact_handleClose_run, Hoff in Hon.
      cbn [fst] in Hon. congruence.
    + destruct (compact_loadProvider_status st provider io) as [Hs | Hs];
        rewrite Hs in Hon; cbn in Hon; congruence.
    + destruct io as [[web3|] [network|]]; try discriminate Hon.
      by exists {| io_JsonRpcProvider := Some web3;
                   io_backupNetwork := Some network |}, web3, network.
Qed.

Lemma only_loadWeb3_activates_witness :
  ∃ io web3 network,
    Full.OpLoadWeb3 web3_ok = Full.OpLoadWeb3 io ∧
    io_JsonRpcProvider io = Some web3 ∧
    io_backupNetwork io = Some network.
Proof.
  destruct (only_loadWeb3_activates ethers_example) as [Hfull _].
  apply (Hfull (Full.OpLoadWeb3 web3_ok) full_wallet_only eq_refl eq_refl).
Defined.



(** ** What holds in every reachable state *)

Lemma full_op_backup_in_use (E : Ethers) (o : Full.Op)
    (st : Store Full.ProviderStore) :
  full_backup_in_use (Full.status st) →
  full_backup_in_use (Full.status (exec (Full.run_op E o) st)).
Proof.
  intros Hinv.
  destruct (full_op_status E o st)
    as [-> | [[io ->] | [[account0 ->] |
        [(p & web3 & network & accounts & ->) | ->]]]].
  - exact Hinv.
  - destruct io as [[web3|] [network|]]; intros Hactive; try discriminate.
    split; [reflexivity|]. split; [by exists web3 | by eexists].
  - exact Hinv.
  - exact Hinv.
  - intros Hactive; discriminate.
Qed.

Lemma compact_op_backup_in_use (E : Ethers) (o : Compact.Op)
    (st : Store Compact.ProviderStore) :
  compact_backup_in_use (Compact.status st) →
  compact_backup_in_use (Compact.status (exec (Compact.run_op E o) st)).
Proof.
  intros Hinv.
  destruct (compact_op_status E o st) as [-> | [[io ->] | [[p ->] | ->]]].
  - exact Hinv.
  - destruct io as [[web3|] [network|]]; intros Hactive; try discriminate.
    split; [reflexivity|]. split; [by exists web3 | by eexists].
  - exact Hinv.
  - intros Hactive; discriminate.
Qed.

(** X6: in every state the store reaches from its initial state, by any run
    of its methods with any answers of the collaborators: when [active] is
    true, [backUpLoaded] is true, [activeChainId] holds a number, and
    [library] holds an RPC client, which in the full variant is the backup
    client [backUpWeb3], also when a wallet handle is the active provider. *)
Theorem backup_client_in_use (E : Ethers) :
  (∀ os : list Full.Op,
     full_backup_in_use (Full.status (Full.run_ops E os Full.init))) ∧
  (∀ os : list Compact.Op,
     compact_backup_in_use (Compact.status (Compact.run_ops E os Compact.init))).
Proof.
  split.
  - assert (H : ∀ os st, full_backup_in_use (Full.status st) →
                  full_backup_in_use (Full.status (Full.run_ops E os st))).
    { induction os as [|o os IH]; intros st Hinv; [exact Hinv|].
      cbn [Full.run_ops]. by apply IH, full_op_backup_in_use. }
    intros os. apply H. intros Hactive; discriminate.
  - assert (H : ∀ os st, compact_backup_in_use (Compact.status st) →
                  compact_backup_in_use
                    (Compact.status (Compact.run_ops E os st))).
    { induction os as [|o os IH]; intros st Hinv; [exact Hinv|].
      cbn [Compact.run_ops]. by apply IH, compact_op_backup_in_use. }
    intros os. apply H. intros Hactive; discriminate.
Qed.

Lemma backup_client_in_use_witness :
  let st := Full.run_ops ethers_example
              [ Full.OpLoadWeb3 web3_ok;
                Full.OpLoadProvider wallet1 (injected_ok ["0xABC"]) ]
              Full.init in
  ∃ web3,
    Full.library (Full.status st) = JsValue web3 ∧
    Full.backUpWeb3 (Full.status st) = JsValue web3.
Proof.
  destruct (backup_client_in_use ethers_example) as [Hfull _].
  destruct (Hfull [ Full.OpLoadWeb3 web3_ok;
                    Full.OpLoadProvider wallet1 (injected_ok ["0xABC"]) ]
              eq_refl) as (_ & Hlib & _).
  exact Hlib.
Defined.

Lemma full_op_injected_recorded (E : Ethers) (o : Full.Op)
    (st : Store Full.ProviderStore) :
  full_injected_recorded (Full.status st) →
  full_injected_recorded (Full.status (exec (Full.run_op E o) st)).
Proof.
  intros [Hia Hinv].
  destruct (full_op_status E o st)
    as [-> | [[io ->] | [[account0 ->] |
        [(p & web3 & network & accounts & ->) | ->]]]].
  - by split.
  - destruct io as [[web3|] [network|]];
      (split; [reflexivity | intros q Hq; discriminate Hq]).
  - by split.
  - split; [exact Hia|]. intros q _.
    split; [reflexivity|]. split; by eexists.
  - split; [exact Hia|]. intros q Hq; discriminate Hq.
Qed.

(** X7: in every state the full store reaches from its initial state,
    [injectedActive] is false (no method ever sets it), and whenever a
    wallet handle is the active provider, [injectedLoaded] is true and
    [injectedChainId] and [injectedWeb3] hold the values of that load. *)
Theorem injected_members_recorded (E : Ethers) (os : list Full.Op) :
  full_injected_recorded (Full.status (Full.run_ops E os Full.init)).
Proof.
  assert (H : ∀ os st, full_injected_recorded (Full.status st) →
                full_injected_recorded (Full.status (Full.run_ops E os st))).
  { clear os. induction os as [|o os IH]; intros st Hinv; [exact Hinv|].
    cbn [Full.run_ops]. by apply IH, full_op_injected_recorded. }
  apply H. split; [reflexivity|]. intros p Hp; discriminate Hp.
Qed.

Lemma injected_members_recorded_witness :
  Full.injectedLoaded
    (Full.status
       (Full.run_ops ethers_example
          [ Full.OpLoadWeb3 web3_ok;
            Full.OpLoadProvider wallet1 (injected_ok ["0xABC"]) ]
          Full.init))
  = true.
Proof.
  destruct (injected_members_recorded ethers_example
              [ Full.OpLoadWeb3 web3_ok;
                Full.OpLoadProvider wallet1 (injected_ok ["0xABC"]) ])
    as [_ Hhandle].
  destruct (Hhandle wallet1 eq_refl) as [Hloaded _]. exact Hloaded.
Defined.

(** ** Listeners when a load fails or the backup load comes in between *)

(** The registry after the full [loadProvider], whatever the answers: the
    old listeners are removed first; the new ones are registered once the
    old library is closed and the RPC client is built, before the queries. *)
Lemma full_loadProvider_listeners_after (st : Store Full.ProviderStore)
    (p : Provider) (io : InjectedIO) :
  listeners (world (exec (Full.loadProvider p io) st))
  = if close_answered (Full.library (Full.status st)) io &&
       answered (io_Web3Provider io)
    then attach_listeners Full.store_listeners p
           (detach_listeners Full.store_listeners
              (Full.activeProvider (Full.status st)) (listeners (world st)))
    else detach_listeners Full.store_listeners
           (Full.activeProvider (Full.status st)) (listeners (world st)).
Proof.
  assert (Htry : ∃ t es r,
    Full.loadProvider_try p io st
    = ({| this := t;
          world :=
            {| listeners :=
                 if close_answered (Full.library (Full.status st)) io &&
                    answered (io_Web3Provider io)
                 then attach_listeners Full.store_listeners p
                        (detach_listeners Full.store_listeners
                           (Full.activeProvider (Full.status st))
                           (listeners (world st)))
                 else detach_listeners Full.store_listeners
                        (Full.activeProvider (Full.status st))
                        (listeners (world st));
               effects := es |} |}, r)).
  { unfold Full.loadProvider_try, Full.status.
    erewrite bind_ok by reflexivity.
    erewrite bind_ok by apply full_remove_old_listeners_run.
    erewrite bind_ok by reflexivity.
    destruct (close_answered (Full.library (Full.providerStatus (this st))) io)
      eqn:Hclose.
    2:{ erewrite bind_throw
          by (rewrite close_old_library_run; simpl; rewrite Hclose;
              reflexivity).
        eexists _, _, _; reflexivity. }
    erewrite bind_ok
      by (rewrite close_old_library_run; simpl; rewrite Hclose; reflexivity).
    erewrite bind_ok by apply emit_run.
    destruct (io_Web3Provider io) as [web3|].
    2:{ erewrite bind_throw by reflexivity. eexists _, _, _; reflexivity. }
    erewrite bind_ok by reflexivity.
    erewrite bind_ok by apply when_emit_run.
    erewrite bind_ok by apply full_subscribe_listeners_run.
    erewrite bind_ok by apply emit_run.
    destruct (io_injectedNetwork io) as [network|].
    2:{ erewrite bind_throw by reflexivity. eexists _, _, _; reflexivity. }
    erewrite bind_ok by reflexivity.
    erewrite bind_ok by apply emit_run.
    destruct (io_listAccounts io) as [accounts|].
    2:{ erewrite bind_throw by reflexivity. eexists _, _, _; reflexivity. }
    erewrite bind_ok by reflexivity.
    eexists _, _, _; reflexivity. }
  destruct Htry as (t & es & r & Htry).
  unfold exec, Full.loadProvider. destruct r as [[]|x].
  - erewrite try_catch_ok by exact Htry. reflexivity.
  - erewrite try_catch_throw by exact Htry. reflexivity.
Qed.

Lemma compact_loadProvider_listeners_after (st : Store Compact.ProviderStore)
    (p : Provider) (io : InjectedIO) :
  listeners (world (exec (Compact.loadProvider p io) st))
  = if close_answered (Compact.library (Compact.status st)) io
    then attach_listeners Compact.store_listeners p
           (detach_listeners Compact.store_listeners
              (Compact.activeProvider (Compact.status st))
              (listeners (world st)))
    else detach_listeners Compact.store_listeners
           (Compact.activeProvider (Compact.status st)) (listeners (world st)).
Proof.
  destruct (close_answered (Compact.library (Compact.status st)) io) eqn:Hc.
  - unfold exec. rewrite (compact_loadProvider_ok st p io Hc). reflexivity.
  - assert (Htry : ∃ es,
      Compact.loadProvider_try p io st
      = ({| this := this st;
            world :=
              {| listeners :=
                   detach_listeners Compact.store_listeners
                     (Compact.activeProvider (Compact.status st))
                     (listeners (world st));
                 effects := es |} |}, Throw ExnExternal)).
    { unfold Compact.loadProvider_try, Compact.status in *.
      erewrite bind_ok by reflexivity.
      erewrite bind_ok by apply compact_remove_old_listeners_run.
      erewrite bind_ok by reflexivity.
      erewrite bind_throw
        by (rewrite close_old_library_run; simpl; rewrite Hc; reflexivity).
      eexists; reflexivity. }
    destruct Htry as [es Htry]. unfold exec, Compact.loadProvider.
    erewrite try_catch_throw by exact Htry. reflexivity.
Qed.

Lemma attached_handles_elem (p : Provider) (l : list Subscription) :
  p ∈ attached_handles l ↔ ∃ s, s ∈ l ∧ sub_handle s = p.
Proof.
  unfold attached_handles. rewrite elem_of_remove_dups, list_elem_of_fmap.
  split; intros (s & H1 & H2); exists s; done.
Qed.

Lemma full_current_listeners_handle (p : Provider) :
  provider_on p = true →
  (p, chainChanged, this_handleNetworkChanged)
    ∈ current_listeners Full.store_listeners (APHandle p).
Proof.
  intros Hon. unfold current_listeners. rewrite Hon. cbn.
  do 3 right. left.
Qed.

(** X8: in the full variant [loadProvider] registers its listeners before
    it asks for the network and the accounts.  When one of these queries
    fails, the call ends with [activeProvider = null] while the four
    listeners stay on the handle; the next successful [loadProvider] removes
    nothing, so the registry then holds the listeners of both handles (every
    listener twice when it is the same handle). *)
Theorem failed_query_leaves_listeners (st : Store Full.ProviderStore)
    (p q : Provider) (io io' : InjectedIO) :
  full_listeners_in_step st →
  provider_on p = true →
  provider_on q = true →
  close_answered (Full.library (Full.status st)) io = true →
  answered (io_Web3Provider io) = true →
  full_try_completes st io = false →
  let st' := exec (Full.loadProvider p io) st in
  let st'' := exec (Full.loadProvider q io') st' in
  Full.activeProvider (Full.status st') = APNull ∧
  listeners (world st') = subscriptions_of Full.store_listeners p ∧
  (full_try_completes st' io' = true →
   Full.activeProvider (Full.status st'') = APHandle q ∧
   listeners (world st'')
   = subscriptions_of Full.store_listeners q ++
     subscriptions_of Full.store_listeners p ∧
   p ∈ attached_handles (listeners (world st'')) ∧
   q ∈ attached_handles (listeners (world st''))).
Proof.
  intros Hstep Hp Hq Hclose Hweb3 Hfail. cbv zeta.
  assert (Hap : Full.activeProvider
                  (Full.status (exec (Full.loadProvider p io) st)) = APNull).
  { destruct (full_loadProvider_failed st p io Hfail) as [w Hrun].
    unfold exec. rewrite Hrun. reflexivity. }
  assert (Hls : listeners (world (exec (Full.loadProvider p io) st))
                = subscriptions_of Full.store_listeners p).
  { rewrite full_loadProvider_listeners_after, Hclose, Hweb3. cbn [andb].
    rewrite Hstep, full_detach_current, attach_to_empty.
    unfold current_listeners. by rewrite Hp. }
  split; [exact Hap|]. split; [exact Hls|]. intros Hok.
  assert (Hls' : listeners
                   (world (exec (Full.loadProvider q io')
                             (exec (Full.loadProvider p io) st)))
                 = subscriptions_of Full.store_listeners q ++
                   subscriptions_of Full.store_listeners p).
  { rewrite full_loadProvider_listeners_after.
    destruct (full_try_completes_answers _ io' Hok)
      as (Hclose' & web3' & network' & accounts' & Hweb3' & _).
    rewrite Hclose', Hweb3', Hap, Hls. cbn [answered andb detach_listeners].
    unfold attach_listeners. by rewrite Hq. }
  split.
  - destruct (full_loadProvider_status
                (exec (Full.loadProvider p io) st) q io')
      as [_ [(web3 & network & accounts & ->) | Hcleared]]; [reflexivity|].
    destruct (full_try_completes_answers _ io' Hok)
      as (Hclose' & web3' & network' & accounts' & Hweb3' & Hnet' & Haccts').
    pose proof (full_loadProvider_try_ok _ q io' web3' network' accounts'
                  Hclose' Hweb3' Hnet' Haccts') as Htry.
    unfold exec at 1, Full.loadProvider.
    erewrite try_catch_ok by exact Htry. reflexivity.
  - split; [exact Hls'|]. rewrite Hls', !attached_handles_elem. split.
    + exists (p, chainChanged, this_handleNetworkChanged). split; [|done].
      apply elem_of_app. right.
      pose proof (full_current_listeners_handle p Hp) as Hin.
      unfold current_listeners in Hin. by rewrite Hp in Hin.
    + exists (q, chainChanged, this_handleNetworkChanged). split; [|done].
      apply elem_of_app. left.
      pose proof (full_current_listeners_handle q Hq) as Hin.
      unfold current_listeners in Hin. by rewrite Hq in Hin.
Qed.

Lemma failed_query_leaves_listeners_witness :
  let st'' := exec (Full.loadProvider wallet2 (injected_ok []))
                (exec (Full.loadProvider wallet1 injected_network_down)
                   Full.init) in
  wallet1 ∈ attached_handles (listeners (world st'')) ∧
  wallet2 ∈ attached_handles (listeners (world st'')).
Proof.
  destruct (failed_query_leaves_listeners Full.init wallet1 wallet2
              injected_network_down (injected_ok [])
              eq_refl eq_refl eq_refl eq_refl eq_refl eq_refl)
    as (_ & _ & Hnext).
  destruct (Hnext eq_refl) as (_ & _ & H1 & H2).
  split; [exact H1 | exact H2].
Defined.

(** X9: in the compact variant [loadProvider] keeps the registry in step
    with [activeProvider] on every path: its only failure, a rejected
    [library.close()], comes after the old listeners are removed and before
    any new one is registered. *)
Theorem compact_loadProvider_keeps_step (st : Store Compact.ProviderStore)
    (p : Provider) (io : InjectedIO) :
  compact_listeners_in_step st →
  compact_listeners_in_step (exec (Compact.loadProvider p io) st).
Proof.
  intros Hstep. unfold compact_listeners_in_step in *.
  rewrite compact_loadProvider_listeners_after, Hstep, compact_detach_current.
  destruct (close_answered (Compact.library (Compact.status st)) io) eqn:Hc.
  - unfold exec. rewrite (compact_loadProvider_ok st p io Hc).
    apply attach_to_empty.
  - destruct (compact_loadProvider_failed st p io Hc) as [w Hrun].
    unfold exec. rewrite Hrun. reflexivity.
Qed.

Lemma compact_loadProvider_keeps_step_witness :
  let st := exec (Compact.loadProvider wallet2 injected_close_rejected)
              (exec (Compact.loadProvider wallet1 (injected_ok []))
                 (exec (Compact.loadWeb3 web3_closable) Compact.init)) in
  compact_listeners_in_step st ∧
  Compact.activeProvider (Compact.status st) = APNull ∧
  listeners (world st) = [].
Proof.
  split; [|split; reflexivity].
  apply compact_loadProvider_keeps_step.
  apply compact_loadProvider_keeps_step.
  reflexivity.
Defined.

Lemma full_loadWeb3_forgets_handle (io : Web3IO)
    (st : Store Full.ProviderStore) :
  listeners (world (exec (Full.loadWeb3 io) st)) = listeners (world st) ∧
  detach_listeners Full.store_listeners
    (Full.activeProvider (Full.status (exec (Full.loadWeb3 io) st)))
  = λ reg, reg.
Proof. destruct io as [[web3|] [network|]]; split; reflexivity. Qed.

Lemma compact_loadWeb3_forgets_handle (io : Web3IO)
    (st : Store Compact.ProviderStore) :
  listeners (world (exec (Compact.loadWeb3 io) st)) = listeners (world st) ∧
  detach_listeners Compact.store_listeners
    (Compact.activeProvider (Compact.status (exec (Compact.loadWeb3 io) st)))
  = λ reg, reg.
Proof. destruct io as [[web3|] [network|]]; split; reflexivity. Qed.

(** X10: [loadWeb3] overwrites [activeProvider] (with ['backup'] or [null])
    and leaves the listeners on the wallet handle, so the [loadProvider] that
    follows removes none: it registers its listeners on top of those already
    there.  Reloading the same wallet handle after a backup load therefore
    registers every listener a second time.  Both variants. *)
Theorem loadWeb3_then_loadProvider_keeps_old_listeners
    (fst : Store Full.ProviderStore) (cst : Store Compact.ProviderStore)
    (io : Web3IO) (q : Provider) (io' : InjectedIO) :
  provider_on q = true →
  (full_try_completes (exec (Full.loadWeb3 io) fst) io' = true →
   listeners
     (world (exec (Full.loadProvider q io') (exec (Full.loadWeb3 io) fst)))
   = subscriptions_of Full.store_listeners q ++ listeners (world fst)) ∧
  (compact_try_completes (exec (Compact.loadWeb3 io) cst) io' = true →
   listeners
     (world
        (exec (Compact.loadProvider q io') (exec (Compact.loadWeb3 io) cst)))
   = subscriptions_of Compact.store_listeners q ++ listeners (world cst)).
Proof.
  intros Hq. split; intros Hok.
  - rewrite full_loadProvider_listeners_after.
    destruct (full_try_completes_answers _ io' Hok)
      as (Hclose & web3 & network & accounts & Hweb3 & _).
    rewrite Hclose, Hweb3. cbn [answered andb].
    destruct (full_loadWeb3_forgets_handle io fst) as [-> ->].
    unfold attach_listeners. by rewrite Hq.
  - rewrite compact_loadProvider_listeners_after.
    unfold compact_try_completes in Hok. rewrite Hok.
    destruct (compact_loadWeb3_forgets_handle io cst) as [-> ->].
    unfold attach_listeners. by rewrite Hq.
Qed.

Lemma loadWeb3_then_loadProvider_keeps_old_listeners_witness :
  listeners
    (world
       (exec (Full.loadProvider wallet1 (injected_ok ["0xABC"]))
          (exec (Full.loadWeb3 web3_ok) full_wallet_only)))
  = subscriptions_of Full.store_listeners wallet1 ++
    subscriptions_of Full.store_listeners wallet1.
Proof.
  destruct (loadWeb3_then_loadProvider_keeps_old_listeners full_wallet_only
              Compact.init web3_ok wallet1 (injected_ok ["0xABC"]) eq_refl)
    as [Hfull _].
  rewrite (Hfull eq_refl). reflexivity.
Defined.

(** ** Encoding one call and a list of calls *)

Lemma full_encodeTransaction_guards (E : Ethers)
    (st : Store Full.ProviderStore) (c : FunctionCall) :
  Full.encodeTransaction E (fc_contractType c) (fc_contractAddress c)
    (fc_action c) (fc_params c) (fc_overrides c) st
  = if negb (truthy truthy_string (Full.account (Full.status st)))
    then (st, Throw (ExnError BlockchainActionNoAccount))
    else if negb (truthy truthy_number (Full.activeChainId (Full.status st)))
    then (st, Throw (ExnError BlockchainActionNoChainId))
    else
      bind (Full.getContract E (fc_contractType c) (fc_contractAddress c)
              (Full.account (Full.status st)))
        (λ contract,
           bind (contract_encode E contract (fc_action c) (fc_params c))
             (λ data,
                ret {| data := data; to := contract_address contract;
                       value := 0 |})) st.
Proof.
  unfold Full.encodeTransaction, Full.read_status, Full.status.
  unfold bind at 1 2; cbn [get_this ret].
  destruct (truthy truthy_string _); [|reflexivity].
  destruct (truthy truthy_number _); reflexivity.
Qed.

(** One call on a store that passes the guards and has a library with a
    signer: the descriptor, or the exception of the encoding. *)
Lemma full_encodeTransaction_run (E : Ethers) (st : Store Full.ProviderStore)
    (c : FunctionCall) (lib : Library) (signer : JsonRpcSigner) :
  truthy truthy_string (Full.account (Full.status st)) = true →
  truthy truthy_number (Full.activeChainId (Full.status st)) = true →
  Full.library (Full.status st) = JsValue lib →
  ethers_getSigner E lib (Full.account (Full.status st)) = Some signer →
  Full.encodeTransaction E (fc_contractType c) (fc_contractAddress c)
    (fc_action c) (fc_params c) (fc_overrides c) st
  = ({| this := this st;
        world :=
          {| listeners := listeners (world st);
             effects :=
               effects (world st) ++
               encode_effects lib (Full.account (Full.status st)) c |} |},
     match descriptor_of E c with
     | Some t => Ok t
     | None => Throw ExnExternal
     end).
Proof.
  intros Hacc Hchain Hlib Hsigner.
  rewrite full_encodeTransaction_guards, Hacc, Hchain. cbn [negb].
  destruct st as [[cd ps ss] [ls es]]. unfold Full.status in *; cbn in *.
  unfold Full.getContract, getProviderOrSigner, library_getSigner,
    new_Contract, contract_encode, Full.read_status, emit, modify_world,
    await, bind, get_this, ret, throw, descriptor_of, encode_effects; cbn.
  rewrite Hacc, Hlib; cbn. rewrite Hsigner; cbn.
  rewrite <- !app_assoc.
  destruct (ethers_encode E (schema E (fc_contractType c)) (fc_action c)
              (fc_params c)); reflexivity.
Qed.




(** X12: the guards of [encodeTransaction] are per call.
    [sendTransactions([])] returns the empty list on every store, with no
    account or chain id as well; on a non-empty list without an account it
    throws [BlockchainActionNoAccount] at the first call, before any
    collaborator is called, and so does [sendTransaction]. *)
Theorem sendTransactions_guards_per_call (E : Ethers)
    (st : Store Full.ProviderStore) (c : FunctionCall)
    (rest : list FunctionCall) :
  Full.sendTransactions E [] st = (st, Ok []) ∧
  (truthy truthy_string (Full.account (Full.status st)) = false →
   Full.sendTransactions E (c :: rest) st
   = (st, Throw (ExnError BlockchainActionNoAccount)) ∧
   Full.sendTransaction E (fc_contractType c) (fc_contractAddress c)
     (fc_action c) (fc_params c) (fc_overrides c) st
   = (st, Throw (ExnError BlockchainActionNoAccount))) ∧
  (truthy truthy_string (Full.account (Full.status st)) = true →
   truthy truthy_number (Full.activeChainId (Full.status st)) = false →
   Full.sendTransactions E (c :: rest) st
   = (st, Throw (ExnError BlockchainActionNoChainId))).
Proof.
  split; [reflexivity|]. split.
  - intros Hacc.
    assert (Hrun := full_encodeTransaction_guards E st c).
    rewrite Hacc in Hrun. cbn [negb] in Hrun.
    unfold Full.sendTransaction. cbn [Full.sendTransactions].
    split; erewrite bind_throw by exact Hrun; reflexivity.
  - intros Hacc Hchain.
    assert (Hrun := full_encodeTransaction_guards E st c).
    rewrite Hacc, Hchain in Hrun. cbn [negb] in Hrun.
    cbn [Full.sendTransactions].
    erewrite bind_throw by exact Hrun; reflexivity.
Qed.

Lemma sendTransactions_guards_per_call_witness :
  Full.sendTransactions ethers_example
    [ {| fc_contractType := TestToken; fc_contractAddress := "0xToken";
         fc_action := "approve"; fc_params := [];
         fc_overrides := JsUndefined |} ] full_backup_active
  = (full_backup_active, Throw (ExnError BlockchainActionNoAccount)) ∧
  Full.sendTransactions ethers_example
    [ {| fc_contractType := TestToken; fc_contractAddress := "0xToken";
         fc_action := "approve"; fc_params := [];
         fc_overrides := JsUndefined |} ] full_wallet_only
  = (full_wallet_only, Throw (ExnError BlockchainActionNoChainId)).
Proof.
  split.
  - destruct (sendTransactions_guards_per_call ethers_example
                full_backup_active
                {| fc_contractType := TestToken;
                   fc_contractAddress := "0xToken";
                   fc_action := "approve"; fc_params := [];
                   fc_overrides := JsUndefined |} []) as (_ & Hacc & _).
    apply (Hacc eq_refl).
  - destruct (sendTransactions_guards_per_call ethers_example
                full_wallet_only
                {| fc_contractType := TestToken;
                   fc_contractAddress := "0xToken";
                   fc_action := "approve"; fc_params := [];
                   fc_overrides := JsUndefined |} []) as (_ & _ & Hchain).
    apply (Hchain eq_refl eq_refl).
Defined.

(** ** Binding a signer or the library *)

(** X13: [getProviderOrSigner] asks the library for a signer before it looks
    at the account (the argument of its debug output).  So with [library]
    [null] or [undefined] it throws a [TypeError] even when no account is
    given, and a failing [getSigner] makes it throw even when it would have
    returned the library itself.  When [getSigner] answers, it returns the
    library after one [getSigner] call if the account is unset, and an
    unchecked signer after two calls if it is set. *)
Theorem getProviderOrSigner_asks_signer_first {S : Type} (E : Ethers)
    (st : Store S) (library : JsVal Library) (account : JsVal string) :
  (¬ not_nullish library →
   getProviderOrSigner E library account st = (st, Throw ExnTypeError)) ∧
  (∀ lib,
     library = JsValue lib →
     ethers_getSigner E lib account = None →
     result (getProviderOrSigner E library account) st = Throw ExnExternal) ∧
  (∀ lib signer,
     library = JsValue lib →
     ethers_getSigner E lib account = Some signer →
     getProviderOrSigner E library account st
     = if truthy truthy_string account
       then ({| this := this st;
                world :=
                  {| listeners := listeners (world st);
                     effects :=
                       effects (world st) ++
                       [EffGetSigner lib account; EffGetSigner lib account] |} |},
             Ok (UncheckedJsonRpcSigner signer))
       else ({| this := this st;
                world :=
                  {| listeners := listeners (world st);
                     effects :=
                       effects (world st) ++ [EffGetSigner lib account] |} |},
             Ok (ReadOnly library))).
Proof.
  split; [|split].
  - intros Hnull. destruct library as [| |lib]; [reflexivity | reflexivity |].
    destruct Hnull. exact I.
  - intros lib -> Hnone.
    unfold result, getProviderOrSigner, library_getSigner, bind, emit,
      modify_world, await, throw; cbn. by rewrite Hnone.
  - intros lib signer -> Hsome.
    unfold getProviderOrSigner, library_getSigner, bind, emit, modify_world,
      await, ret; cbn. rewrite Hsome; cbn.
    destruct (truthy truthy_string account); [|reflexivity].
    cbn. by rewrite <- app_assoc.
Qed.

Lemma getProviderOrSigner_asks_signer_first_witness :
  getProviderOrSigner ethers_example JsNull JsUndefined Full.init
  = (Full.init, Throw ExnTypeError) ∧
  result (getProviderOrSigner ethers_example (JsValue backup_client)
            JsUndefined) Compact.init
  = Ok (ReadOnly (JsValue backup_client)).
Proof.
  split.
  - destruct (getProviderOrSigner_asks_signer_first ethers_example Full.init
                JsNull JsUndefined) as [Hnull _].
    apply Hnull. intros [].
  - destruct (getProviderOrSigner_asks_signer_first ethers_example
                Compact.init (JsValue backup_client) JsUndefined)
      as (_ & _ & Hsome).
    unfold result.
    rewrite (Hsome backup_client
               {| signer_library := backup_client;
                  signer_account := JsUndefined |} eq_refl eq_refl).
    reflexivity.
Defined.

(** X14: [getContract] with a signer account on a store whose [library] is
    [null] or [undefined] throws a [TypeError] and constructs no contract
    (the store and the log are as they were); without a signer account it
    binds the stored library and never asks for a signer: its only
    collaborator call is the contract constructor.  Both variants. *)
Theorem getContract_signer_needs_library (E : Ethers)
    (fst : Store Full.ProviderStore) (cst : Store Compact.ProviderStore)
    (type : ContractTypes) (address : string) (signerAccount : JsVal string) :
  (truthy truthy_string signerAccount = true →
   (¬ not_nullish (Full.library (Full.status fst)) →
    Full.getContract E type address signerAccount fst
    = (fst, Throw ExnTypeError)) ∧
   (¬ not_nullish (Compact.library (Compact.status cst)) →
    Compact.getContract E type address signerAccount cst
    = (cst, Throw ExnTypeError))) ∧
  (truthy truthy_string signerAccount = false →
   effects (world (exec (Full.getContract E type address signerAccount) fst))
   = effects (world fst) ++ [EffNewContract address type] ∧
   effects
     (world (exec (Compact.getContract E type address signerAccount) cst))
   = effects (world cst) ++ [EffNewContract address type]).
Proof.
  split; intros Hs.
  - split; intros Hnull.
    + unfold Full.getContract, Full.read_status, Full.status in *.
      unfold bind at 1 2; cbn [get_this ret]. rewrite Hs.
      destruct (Full.library _) as [| |lib];
        [reflexivity | reflexivity | destruct Hnull; exact I].
    + unfold Compact.getContract, Compact.read_status, Compact.status in *.
      unfold bind at 1 2; cbn [get_this ret]. rewrite Hs.
      destruct (Compact.library _) as [| |lib];
        [reflexivity | reflexivity | destruct Hnull; exact I].
  - split.
    + unfold exec, Full.getContract, Full.read_status.
      unfold bind at 1 2; cbn [get_this ret]. rewrite Hs. reflexivity.
    + unfold exec, Compact.getContract, Compact.read_status.
      unfold bind at 1 2; cbn [get_this ret]. rewrite Hs. reflexivity.
Qed.

Lemma getContract_signer_needs_library_witness :
  Full.getContract ethers_example BPool "0xPool" (JsValue "0xABC")
    full_no_library
  = (full_no_library, Throw ExnTypeError) ∧
  effects
    (world (exec (Compact.getContract ethers_example BPool "0xPool" JsUndefined)
              Compact.init))
  = [EffNewContract "0xPool" BPool].
Proof.
  split.
  - destruct (getContract_signer_needs_library ethers_example full_no_library
                Compact.init BPool "0xPool" (JsValue "0xABC"))
      as [Hsigner _].
    destruct (Hsigner eq_refl) as [Hfull _]. apply Hfull. intros [].
  - destruct (getContract_signer_needs_library ethers_example Full.init
                Compact.init BPool "0xPool" JsUndefined) as [_ Hread].
    destruct (Hread eq_refl) as [_ Hcompact]. exact Hcompact.
Defined.

(** ** Encoding after a load *)

Lemma full_encodeTransaction_no_account (E : Ethers)
    (st : Store Full.ProviderStore) (c : FunctionCall) :
  truthy truthy_string (Full.account (Full.status st)) = false →
  result (Full.encodeTransaction E (fc_contractType c) (fc_contractAddress c)
            (fc_action c) (fc_params c) (fc_overrides c)) st
  = Throw (ExnError BlockchainActionNoAccount).
Proof.
  intros Hacc. unfold result.
  by rewrite full_encodeTransaction_guards, Hacc.
Qed.

(** X15: a load that leaves no account makes [encodeTransaction] throw
    [BlockchainActionNoAccount]: every [loadWeb3], successful or not, while
    no Safe info has been received; every failed [loadProvider]; and every
    [loadProvider] whose wallet reports an empty account list. *)
Theorem no_account_after_load (E : Ethers) (st : Store Full.ProviderStore)
    (c : FunctionCall) (io : Web3IO) (p : Provider) (pio : InjectedIO) :
  let encode := Full.encodeTransaction E (fc_contractType c)
                  (fc_contractAddress c) (fc_action c) (fc_params c)
                  (fc_overrides c) in
  (Full.safeInfo (Full.safeStatus (this st)) = JsUndefined →
   result encode (exec (Full.loadWeb3 io) st)
   = Throw (ExnError BlockchainActionNoAccount)) ∧
  (full_try_completes st pio = false →
   result encode (exec (Full.loadProvider p pio) st)
   = Throw (ExnError BlockchainActionNoAccount)) ∧
  (io_listAccounts pio = Some [] →
   result encode (exec (Full.loadProvider p pio) st)
   = Throw (ExnError BlockchainActionNoAccount)).
Proof.
  cbv zeta. split; [|split].
  - intros Hsafe. apply full_encodeTransaction_no_account.
    destruct io as [[web3|] [network|]]; try reflexivity.
    cbn. unfold Full.safeInfo_and_safeAddress. by rewrite Hsafe.
  - intros Hfail. apply full_encodeTransaction_no_account.
    destruct (full_loadProvider_failed st p pio Hfail) as [w Hrun].
    unfold exec. rewrite Hrun. reflexivity.
  - intros Hempty. apply full_encodeTransaction_no_account.
    destruct (full_loadProvider_status st p pio)
      as [_ [(web3 & network & accounts & Hs) | Hs]].
    + destruct (full_try_completes st pio) eqn:Hc.
      * destruct (full_try_completes_answers st pio Hc)
          as (Hclose & web3' & network' & accounts' & Hw & Hn & Ha).
        pose proof (full_loadProvider_try_ok st p pio web3' network' accounts'
                      Hclose Hw Hn Ha) as Htry.
        unfold exec, Full.loadProvider.
        erewrite try_catch_ok by exact Htry.
        rewrite Hempty in Ha. injection Ha as <-. reflexivity.
      * destruct (full_loadProvider_failed st p pio Hc) as [w Hrun].
        unfold exec. rewrite Hrun. reflexivity.
    + rewrite Hs. reflexivity.
Qed.

Lemma no_account_after_load_witness :
  result
    (Full.encodeTransaction ethers_example TestToken "0xToken" "approve" []
       JsUndefined)
    (exec (Full.loadWeb3 web3_ok) full_wallet_loaded)
  = Throw (ExnError BlockchainActionNoAccount) ∧
  result
    (Full.encodeTransaction ethers_example TestToken "0xToken" "approve" []
       JsUndefined)
    (exec (Full.loadProvider wallet2 (injected_ok [])) full_wallet_loaded)
  = Throw (ExnError BlockchainActionNoAccount).
Proof.
  destruct (no_account_after_load ethers_example full_wallet_loaded
              {| fc_contractType := TestToken; fc_contractAddress := "0xToken";
                 fc_action := "approve"; fc_params := [];
                 fc_overrides := JsUndefined |}
              web3_ok wallet2 (injected_ok [])) as (Hweb3 & _ & Hempty).
  split; [apply (Hweb3 eq_refl) | apply (Hempty eq_refl)].
Defined.

(** X16: inside a Safe the backup load is enough to sign: after
    [setSafeInfo(info)] and a successful [loadWeb3()], [encodeTransaction]
    binds the signer of the backup client for the Safe address and returns
    the descriptor, provided the Safe address is not empty, the chain id of
    the endpoint is not 0, the client yields that signer and the encoding
    succeeds. *)
Theorem safe_account_encodes (E : Ethers) (st : Store Full.ProviderStore)
    (info : Full.SafeInfo) (web3 : Library) (network : Network)
    (c : FunctionCall) (signer : JsonRpcSigner) (d : string) :
  truthy_string (Full.safeAddress info) = true →
  truthy_number (chainId network) = true →
  ethers_getSigner E web3 (JsValue (Full.safeAddress info)) = Some signer →
  ethers_encode E (schema E (fc_contractType c)) (fc_action c) (fc_params c)
  = Some d →
  result
    (Full.encodeTransaction E (fc_contractType c) (fc_contractAddress c)
       (fc_action c) (fc_params c) (fc_overrides c))
    (exec (Full.loadWeb3 {| io_JsonRpcProvider := Some web3;
                            io_backupNetwork := Some network |})
       (exec (Full.setSafeInfo info) st))
  = Ok {| data := d; to := fc_contractAddress c; value := 0 |}.
Proof.
  intros Haddr Hchain Hsigner Hencode.
  unfold result.
  erewrite (full_encodeTransaction_run E _ c web3 signer);
    [| exact Haddr | exact Hchain | reflexivity | exact Hsigner].
  cbn [snd]. unfold descriptor_of. by rewrite Hencode.
Qed.

Lemma safe_account_encodes_witness :
  result
    (Full.encodeTransaction ethers_example TestToken "0xToken" "approve" []
       JsUndefined)
    (exec (Full.loadWeb3 web3_ok)
       (exec (Full.setSafeInfo safe_info_example) Full.init))
  = Ok {| data := "0x095ea7b3"; to := "0xToken"; value := 0 |}.
Proof.
  apply (safe_account_encodes ethers_example Full.init safe_info_example
           backup_client mainnet
           {| fc_contractType := TestToken; fc_contractAddress := "0xToken";
              fc_action := "approve"; fc_params := [];
              fc_overrides := JsUndefined |}
           {| signer_library := backup_client;
              signer_account := JsValue "0x5AFE" |}
           "0x095ea7b3" eq_refl eq_refl eq_refl eq_refl).
Defined.

(** ** The library across a wallet load *)

Lemma full_getContract_by_library (E : Ethers) (type : ContractTypes)
    (address : string) (signerAccount : JsVal string)
    (st1 st2 : Store Full.ProviderStore) :
  Full.library (Full.status st1) = Full.library (Full.status st2) →
  result (Full.getContract E type address signerAccount) st1
  = result (Full.getContract E type address signerAccount) st2.
Proof.
  destruct st1 as [[cd1 ps1 ss1] w1], st2 as [[cd2 ps2 ss2] w2].
  unfold Full.status; cbn [this Full.providerStatus]. intros Hlib.
  unfold result, Full.getContract, Full.read_status, getProviderOrSigner,
    library_getSigner, new_Contract, bind, get_this, emit, modify_world,
    await, ret, throw; cbn.
  rewrite Hlib.
  destruct (truthy truthy_string signerAccount); [|reflexivity].
  destruct (Full.library ps2) as [| |lib]; [reflexivity | reflexivity |].
  cbn. destruct (ethers_getSigner E lib signerAccount); reflexivity.
Qed.

(** X17: a successful [loadProvider] stores the wallet's RPC client in
    [injectedWeb3] only.  [library] is the member it had before, also when
    that client was just closed, and [getContract] returns exactly what it
    returned before the load: contracts are never bound to the wallet's
    client. *)
Theorem loadProvider_keeps_library (E : Ethers)
    (st : Store Full.ProviderStore) (p : Provider) (io : InjectedIO)
    (type : ContractTypes) (address : string) (signerAccount : JsVal string) :
  full_try_completes st io = true →
  let st' := exec (Full.loadProvider p io) st in
  Full.library (Full.status st') = Full.library (Full.status st) ∧
  result (Full.getContract E type address signerAccount) st'
  = result (Full.getContract E type address signerAccount) st ∧
  (∀ lib, Full.library (Full.status st) = JsValue lib →
          library_close lib = true →
          EffLibraryClose lib ∈ effects (world st')).
Proof.
  intros Hc. cbv zeta.
  destruct (full_try_completes_answers st io Hc)
    as (Hclose & web3 & network & accounts & Hweb3 & Hnet & Haccts).
  pose proof (full_loadProvider_try_ok st p io web3 network accounts
                Hclose Hweb3 Hnet Haccts) as Htry.
  assert (Hlib : Full.library (Full.status (exec (Full.loadProvider p io) st))
                 = Full.library (Full.status st)).
  { unfold exec, Full.loadProvider. erewrite try_catch_ok by exact Htry.
    reflexivity. }
  split; [exact Hlib|]. split.
  - by apply full_getContract_by_library.
  - intros lib Hl Hcl.
    unfold exec, Full.loadProvider. erewrite try_catch_ok by exact Htry.
    cbn [fst world effects]. rewrite Hl. cbn [close_effects]. rewrite Hcl.
    rewrite !elem_of_app. right; right; left. by left.
Qed.

Lemma loadProvider_keeps_library_witness :
  let st' := exec (Full.loadProvider wallet1 (injected_ok ["0xABC"]))
               full_closable_active in
  Full.library (Full.status st') = JsValue closable_client ∧
  EffLibraryClose closable_client ∈ effects (world st').
Proof.
  destruct (loadProvider_keeps_library ethers_example full_closable_active
              wallet1 (injected_ok ["0xABC"]) BPool "0xPool" JsUndefined
              eq_refl) as (Hlib & _ & Hclosed).
  split; [exact Hlib|]. apply (Hclosed closable_client eq_refl eq_refl).
Defined.

(** ** The block number and the Safe info across other methods *)

Lemma full_loadProvider_parts (st : Store Full.ProviderStore) (p : Provider)
    (io : InjectedIO) :
  Full.chainData (this (exec (Full.loadProvider p io) st))
  = Full.chainData (this st) ∧
  Full.safeStatus (this (exec (Full.loadProvider p io) st))
  = Full.safeStatus (this st).
Proof.
  destruct (full_try_completes st io) eqn:Hc.
  - destruct (full_try_completes_answers st io Hc)
      as (Hclose & web3 & network & accounts & Hweb3 & Hnet & Haccts).
    pose proof (full_loadProvider_try_ok st p io web3 network accounts
                  Hclose Hweb3 Hnet Haccts) as Htry.
    unfold exec, Full.loadProvider. erewrite try_catch_ok by exact Htry.
    split; reflexivity.
  - destruct (full_loadProvider_failed st p io Hc) as [w Hrun].
    unfold exec. rewrite Hrun. split; reflexivity.
Qed.

Lemma full_op_parts (E : Ethers) (o : Full.Op) (st : Store Full.ProviderStore) :
  (full_is_setCurrentBlockNumber o = false →
   Full.chainData (this (exec (Full.run_op E o) st))
   = Full.chainData (this st)) ∧
  (full_is_setSafeInfo o = false →
   Full.safeStatus (this (exec (Full.run_op E o) st))
   = Full.safeStatus (this st)).
Proof.
  assert (Hframe : ∀ m : M Full.ProviderStore unit,
            frames_this m →
            (full_is_setCurrentBlockNumber o = false →
             Full.chainData (this (exec m st)) = Full.chainData (this st)) ∧
            (full_is_setSafeInfo o = false →
             Full.safeStatus (this (exec m st)) = Full.safeStatus (this st))).
  { intros m Hm. rewrite Hm. done. }
  assert (Hload : ∀ io,
            Full.chainData (this (exec (Full.loadWeb3 io) st))
            = Full.chainData (this st) ∧
            Full.safeStatus (this (exec (Full.loadWeb3 io) st))
            = Full.safeStatus (this st)).
  { intros [[web3|] [network|]]; split; reflexivity. }
  destruct o; cbn [Full.run_op].
  - split; [reflexivity | discriminate].
  - apply Hframe, full_frames_discard. frames.
  - split; [discriminate | reflexivity].
  - apply Hframe. frames.
  - apply Hframe, full_frames_discard. frames.
  - apply Hframe, full_frames_discard. frames.
  - apply Hframe, full_frames_discard. frames.
  - apply Hframe, full_frames_discard, full_frames_sendTransactions.
  - apply Hframe, full_frames_discard, full_frames_sendTransactions.
  - rewrite full_handleNetworkChanged_this.
    destruct (Full.active (Full.status st)); [|done].
    destruct (Hload io) as [-> ->]. done.
  - unfold exec. rewrite full_handleClose_run.
    destruct (Full.active (Full.status st)); [|done].
    destruct (Hload io) as [H1 H2]. unfold exec in H1, H2.
    rewrite H1, H2. done.
  - destruct accounts as [|account0 accounts]; [|done].
    unfold exec. cbn [Full.handleAccountsChanged].
    rewrite full_handleClose_run.
    destruct (Full.active (Full.status st)); [|done].
    destruct (Hload io) as [H1 H2]. unfold exec in H1, H2.
    rewrite H1, H2. done.
  - destruct (full_loadProvider_parts st provider io) as [-> ->]. done.
  - destruct (Hload io) as [-> ->]. done.
Qed.

(** X18: the block number is written by [setCurrentBlockNumber] alone:
    after [setCurrentBlockNumber(n)] and any run of the other methods (loads
    that fail or succeed, wallet events, encodings), [getCurrentBlockNumber]
    returns [n]. *)
Theorem block_number_survives (E : Ethers) (os : list Full.Op)
    (st : Store Full.ProviderStore) (n : Z) :
  Forall (λ o, full_is_setCurrentBlockNumber o = false) os →
  result Full.getCurrentBlockNumber
    (Full.run_ops E os (exec (Full.setCurrentBlockNumber n) st))
  = Ok n.
Proof.
  intros Hos.
  assert (H : ∀ os s,
    Forall (λ o, full_is_setCurrentBlockNumber o = false) os →
    Full.chainData (this (Full.run_ops E os s)) = Full.chainData (this s)).
  { clear. induction os as [|o os IH]; intros s Hos; [reflexivity|].
    apply Forall_cons in Hos as [Ho Hos]. cbn [Full.run_ops].
    rewrite (IH _ Hos). by apply full_op_parts. }
  unfold result, Full.getCurrentBlockNumber, bind, get_this, ret; cbn.
  by rewrite (H os _ Hos).
Qed.

Lemma block_number_survives_witness :
  result Full.getCurrentBlockNumber
    (Full.run_ops ethers_example
       [ Full.OpLoadWeb3 web3_unreachable;
         Full.OpLoadProvider wallet1 injected_network_down;
         Full.OpHandleAccountsChanged ["0xABC"] web3_ok ]
       (exec (Full.setCurrentBlockNumber 10000000) Full.init))
  = Ok 10000000.
Proof.
  apply (block_number_survives ethers_example
           [ Full.OpLoadWeb3 web3_unreachable;
             Full.OpLoadProvider wallet1 injected_network_down;
             Full.OpHandleAccountsChanged ["0xABC"] web3_ok ]
           Full.init 10000000).
  repeat constructor.
Defined.

(** X19: the Safe info is written by [setSafeInfo] alone, so once it is
    received, every later successful [loadWeb3] makes the Safe address the
    account, whatever loads, wallet events and account changes came in
    between. *)
Theorem safe_info_survives (E : Ethers) (os : list Full.Op)
    (st : Store Full.ProviderStore) (info : Full.SafeInfo)
    (web3 : Library) (network : Network) :
  Forall (λ o, full_is_setSafeInfo o = false) os →
  let st' := Full.run_ops E os (exec (Full.setSafeInfo info) st) in
  Full.safeInfo (Full.safeStatus (this st')) = JsValue info ∧
  Full.account
    (Full.status
       (exec (Full.loadWeb3 {| io_JsonRpcProvider := Some web3;
                               io_backupNetwork := Some network |}) st'))
  = JsValue (Full.safeAddress info).
Proof.
  intros Hos. cbv zeta.
  assert (H : ∀ os s,
    Forall (λ o, full_is_setSafeInfo o = false) os →
    Full.safeStatus (this (Full.run_ops E os s)) = Full.safeStatus (this s)).
  { clear. induction os as [|o os IH]; intros s Hos; [reflexivity|].
    apply Forall_cons in Hos as [Ho Hos]. cbn [Full.run_ops].
    rewrite (IH _ Hos). by apply full_op_parts. }
  specialize (H os (exec (Full.setSafeInfo info) st) Hos).
  split; [by rewrite H|].
  change (Full.safeInfo_and_safeAddress
            (Full.safeStatus
               (this (Full.run_ops E os (exec (Full.setSafeInfo info) st))))
          = JsValue (Full.safeAddress info)).
  by rewrite H.
Qed.

Lemma safe_info_survives_witness :
  Full.account
    (Full.status
       (exec (Full.loadWeb3 web3_ok)
          (Full.run_ops ethers_example
             [ Full.OpLoadProvider wallet1 (injected_ok ["0xABC"]);
               Full.OpLoadWeb3 web3_unreachable;
               Full.OpHandleAccountsChanged ["0xDEF"] web3_ok ]
             (exec (Full.setSafeInfo safe_info_example) Full.init))))
  = JsValue "0x5AFE".
Proof.
  destruct (safe_info_survives ethers_example
              [ Full.OpLoadProvider wallet1 (injected_ok ["0xABC"]);
                Full.OpLoadWeb3 web3_unreachable;
                Full.OpHandleAccountsChanged ["0xDEF"] web3_ok ]
              Full.init safe_info_example backup_client mainnet
              ltac:(repeat constructor)) as [_ Hacc].
  exact Hacc.
Defined.
